(** * Checkpoint structure analyzer: [analyze_nested_dict]

    A shallow embedding of [analyze_checkpoints.py]: the values found in a
    loaded checkpoint, the descriptors the script builds for them, and the
    depth-bounded walk [analyze_nested_dict] with its helper
    [get_tensor_info]. *)

From Stdlib Require Import List String Ascii ZArith Lia Bool.
From Stdlib Require Import Sorting.Sorted.
From Stdlib Require Import QArith DecimalString DecimalN.
Import ListNotations.

Local Open Scope string_scope.
Local Open Scope list_scope.
Local Open Scope Z_scope.

(** ** Data model *)

(** A [torch.Tensor], seen through the five accessors the script calls on
    it: [list(t.shape)], [str(t.dtype)], [t.numel()], [t.element_size()] and
    [str(t.device)]. *)
Record tensor : Type := Tensor
  { shape : list Z;
    dtype : string;
    numel : Z;
    element_size : Z;
    device : string }.

(** Any other Python object on which the builtins the script applies
    return, seen through what they return: [type(o).__name__],
    [sys.getsizeof(o)], [callable(o)] and [str(o)].  Objects whose
    [__str__] or [__sizeof__] raise are [any_object] further down, with
    the same program over them ([analyze_nested_dict_any]); the two agree
    where the builtins return ([analyze_any_outcome]).  One [ascii]
    stands for one character of a Python [str]. *)
Record object : Type := Object
  { type_name : string;
    getsizeof : Z;
    callable : bool;
    str : string }.

(** A value that is not a dictionary. *)
Inductive leaf : Type :=
| LTensor (t : tensor)
| LOther (o : object).

(** A checkpoint value.  A [dict] is the list of its [items()], in
    iteration order; keys are strings.  The script only reads these values,
    so they are kept outside the store below. *)
#[local] Unset Elimination Schemes.
Inductive pyvalue : Type :=
| VDict (items : list (string * pyvalue))
| VLeaf (l : leaf).
#[local] Set Elimination Schemes.

Definition isinstance_dict (v : pyvalue) : bool :=
  match v with
  | VDict _ => true
  | VLeaf _ => false
  end.

(** The dictionary returned by [get_tensor_info]; a key the dictionary does
    not hold is [None]. *)
Record tensor_info : Type := TensorInfo
  { i_shape : option (list Z);
    i_dtype : option string;
    i_size_bytes : option Z;
    i_device : option string;
    i_type : option string }.

(** One entry of the list returned by [analyze_nested_dict]: a dictionary
    with the keys ['key'], ['type'], ['size_bytes'] and, by kind, ['shape'],
    ['dtype'] and ['device'], or ['value_preview']. *)
Record descriptor : Type := Descriptor
  { r_key : string;
    r_type : string;
    r_shape : option (list Z);
    r_dtype : option string;
    r_size_bytes : Z;
    r_device : option string;
    r_value_preview : option string }.

(** ** Python helpers *)

(** Truth value of a [str]: false exactly for the empty string. *)
Definition truthy (s : string) : bool :=
  match s with
  | EmptyString => false
  | String _ _ => true
  end.

(** The slice [s[:n]]. *)
Fixpoint slice_to (n : nat) (s : string) : string :=
  match n, s with
  | O, _ => EmptyString
  | S _, EmptyString => EmptyString
  | S n', String ch s' => String ch (slice_to n' s')
  end.

#[global] Arguments slice_to : simpl never.

(** ** Exceptions and the store of list objects

    The script creates list objects ([results = []]), mutates them in place
    ([append], [extend]) and hands them to its caller by reference.  A
    [store] holds the list objects created so far, a [ref] is the address
    of one of them.  A computation either returns a value and the store it
    leaves, or raises. *)

Inductive exception : Type :=
| KeyError (key : string).

Inductive outcome (A : Type) : Type :=
| Returns (a : A)
| Raises (e : exception).

Arguments Returns {A} a.
Arguments Raises {A} e.

Definition ref : Type := nat.

Definition store : Type := list (list descriptor).

Definition M (A : Type) : Type := store -> outcome (A * store).

Definition ret {A : Type} (a : A) : M A :=
  fun h => Returns (a, h).

Definition bind {A B : Type} (m : M A) (f : A -> M B) : M B :=
  fun h =>
    match m h with
    | Returns (a, h') => f a h'
    | Raises e => Raises e
    end.

Notation "x <- m ;; k" := (bind m (fun x => k))
  (at level 61, m at next level, right associativity).
Notation "m ;; k" := (bind m (fun _ => k))
  (at level 61, right associativity).

(** In-place update of the element at index [i]. *)
Fixpoint update {A : Type} (i : nat) (f : A -> A) (xs : list A) : list A :=
  match xs, i with
  | [], _ => []
  | x :: xs', O => f x :: xs'
  | x :: xs', S i' => x :: update i' f xs'
  end.

(** The contents of the list object at [r]. *)
Definition contents (h : store) (r : ref) : list descriptor :=
  nth r h [].

(** [[]]: a new, empty list object. *)
Definition new_list : M ref :=
  fun h => Returns (List.length h, h ++ [[]]).

(** [xs.append(d)] *)
Definition list_append (xs : ref) (d : descriptor) : M unit :=
  fun h => Returns (tt, update xs (fun l => l ++ [d]) h).

(** [xs.extend(ys)] *)
Definition list_extend (xs ys : ref) : M unit :=
  fun h => Returns (tt, update xs (fun l => l ++ contents h ys) h).

(** [d[key]] on a dictionary whose value for [key], if any, is [field]. *)
Definition subscript {A : Type} (field : option A) (key : string) : M A :=
  match field with
  | Some a => ret a
  | None => fun _ => Raises (KeyError key)
  end.

(** What a caller that runs [prog] in the store [h] gets back: the
    contents of the returned list, or the exception. *)
Definition returned (prog : M ref) (h : store) : outcome (list descriptor) :=
  match prog h with
  | Returns (r, h') => Returns (contents h' r)
  | Raises e => Raises e
  end.

(** ** The program *)

Definition get_tensor_info (x : leaf) : tensor_info :=
  match x with
  | LTensor t =>
      {| i_shape := Some (shape t);
         i_dtype := Some (dtype t);
         i_size_bytes := Some (numel t * element_size t);
         i_device := Some (device t);
         i_type := None |}
  | LOther o =>
      {| i_shape := None;
         i_dtype := None;
         i_size_bytes := Some (getsizeof o);
         i_device := None;
         i_type := Some (type_name o) |}
  end.

(** [analyze_nested_dict data prefix max_depth current_depth].  The inner
    [loop] is the [for key, value in data.items()] loop. *)
Fixpoint analyze_nested_dict (data : pyvalue) (prefix : string)
    (max_depth current_depth : Z) {struct data} : M ref :=
  results <- new_list ;;
  if current_depth >? max_depth then ret results
  else
    match data with
    | VDict items =>
        (fix loop (items : list (string * pyvalue)) {struct items}
           : M unit :=
           match items with
           | [] => ret tt
           | (key, value) :: rest =>
               let full_key :=
                 if truthy prefix then (prefix ++ "." ++ key)%string else key in
               match value with
               | VDict _ =>
                   nested <- analyze_nested_dict value full_key max_depth
                               (current_depth + 1) ;;
                   list_extend results nested
               | VLeaf (LTensor _ as x) =>
                   let tensor_info := get_tensor_info x in
                   shape <- subscript (i_shape tensor_info) "shape" ;;
                   dtype <- subscript (i_dtype tensor_info) "dtype" ;;
                   size_bytes <- subscript (i_size_bytes tensor_info)
                                   "size_bytes" ;;
                   device <- subscript (i_device tensor_info) "device" ;;
                   list_append results
                     {| r_key := full_key;
                        r_type := "tensor";
                        r_shape := Some shape;
                        r_dtype := Some dtype;
                        r_size_bytes := size_bytes;
                        r_device := Some device;
                        r_value_preview := None |}
               | VLeaf (LOther o) =>
                   list_append results
                     {| r_key := full_key;
                        r_type := type_name o;
                        r_shape := None;
                        r_dtype := None;
                        r_size_bytes := getsizeof o;
                        r_device := None;
                        r_value_preview :=
                          Some (if negb (callable o)
                                then slice_to 100 (str o)
                                else "callable") |}
               end ;;
               loop rest
           end) items ;;
        ret results
    | VLeaf _ => ret results
    end.

(** A call from a caller that holds no list object yet. *)
Definition analyze (data : pyvalue) (prefix : string)
    (max_depth current_depth : Z) : outcome (list descriptor) :=
  returned (analyze_nested_dict data prefix max_depth current_depth) [].

(** The call with the defaults of the signature:
    [prefix=""], [max_depth=3], [current_depth=0]. *)
Definition analyze_default (data : pyvalue) : outcome (list descriptor) :=
  analyze data "" 3 0.

(** ** Definitions used to state and prove the properties *)

(** Structural induction on values, with the hypothesis for every value
    stored in a dictionary. *)
Definition pyvalue_ind (P : pyvalue -> Prop)
    (Hdict : forall items, Forall (fun kv => P (snd kv)) items -> P (VDict items))
    (Hleaf : forall l, P (VLeaf l)) : forall v, P v :=
  fix F (v : pyvalue) : P v :=
    match v with
    | VDict items =>
        Hdict items
          ((fix G (its : list (string * pyvalue)) :
              Forall (fun kv => P (snd kv)) its :=
              match its with
              | [] => Forall_nil _
              | kv :: rest => Forall_cons kv (F (snd kv)) (G rest)
              end) items)
    | VLeaf l => Hleaf l
    end.

(** The descriptor appended for a leaf stored under [full_key]. *)
Definition leaf_descriptor (full_key : string) (l : leaf) : descriptor :=
  match l with
  | LTensor t =>
      {| r_key := full_key;
         r_type := "tensor";
         r_shape := Some (shape t);
         r_dtype := Some (dtype t);
         r_size_bytes := numel t * element_size t;
         r_device := Some (device t);
         r_value_preview := None |}
  | LOther o =>
      {| r_key := full_key;
         r_type := type_name o;
         r_shape := None;
         r_dtype := None;
         r_size_bytes := getsizeof o;
         r_device := None;
         r_value_preview :=
           Some (if callable o then "callable" else slice_to 100 (str o)) |}
  end.

(** The contents of the list a call returns, as a function of the
    arguments of the call. *)
Fixpoint walk (data : pyvalue) (prefix : string)
    (max_depth current_depth : Z) {struct data} : list descriptor :=
  if current_depth >? max_depth then []
  else
    match data with
    | VDict items =>
        (fix go (items : list (string * pyvalue)) : list descriptor :=
           match items with
           | [] => []
           | (key, value) :: rest =>
               let full_key :=
                 if truthy prefix then (prefix ++ "." ++ key)%string else key in
               match value with
               | VDict _ => walk value full_key max_depth (current_depth + 1)
               | VLeaf l => [leaf_descriptor full_key l]
               end ++ go rest
           end) items
    | VLeaf _ => []
    end.

(** What one dictionary entry contributes to the list. *)
Definition entry_results (prefix : string) (max_depth current_depth : Z)
    (kv : string * pyvalue) : list descriptor :=
  let full_key :=
    if truthy prefix then (prefix ++ "." ++ fst kv)%string else fst kv in
  match snd kv with
  | VDict _ => walk (snd kv) full_key max_depth (current_depth + 1)
  | VLeaf l => [leaf_descriptor full_key l]
  end.

(** The keys met on the way down, joined as the loop joins them. *)
Fixpoint path_key (prefix : string) (keys : list string) : string :=
  match keys with
  | [] => prefix
  | key :: keys' =>
      path_key (if truthy prefix then (prefix ++ "." ++ key)%string else key)
        keys'
  end.

(** The value found by following item indices from [data], with the keys
    passed on the way. *)
Fixpoint node_at (data : pyvalue) (pos : list nat) :
    option (list string * pyvalue) :=
  match pos with
  | [] => Some ([], data)
  | i :: pos' =>
      match data with
      | VDict items =>
          match nth_error items i with
          | Some (key, value) =>
              match node_at value pos' with
              | Some (keys, x) => Some (key :: keys, x)
              | None => None
              end
          | None => None
          end
      | VLeaf _ => None
      end
  end.

(** [pos] leads to the leaf [l], stored in some dictionary of [data]; the
    dictionary holding it is [length pos - 1] levels below [data]. *)
Definition leaf_at (data : pyvalue) (pos : list nat) (keys : list string)
    (l : leaf) : Prop :=
  pos <> [] /\ node_at data pos = Some (keys, VLeaf l).

(** [data] with the value at [pos] replaced by [x]. *)
Fixpoint replace_at (data : pyvalue) (pos : list nat) (x : pyvalue)
    : pyvalue :=
  match pos with
  | [] => x
  | i :: pos' =>
      match data with
      | VDict items =>
          VDict (update i (fun kv => (fst kv, replace_at (snd kv) pos' x))
                   items)
      | VLeaf l => VLeaf l
      end
  end.

(** Depth-first order on positions: item order at the first index where two
    positions differ. *)
Inductive dfs_lt : list nat -> list nat -> Prop :=
| dfs_lt_nil : forall i q, dfs_lt [] (i :: q)
| dfs_lt_head : forall i j p q, (i < j)%nat -> dfs_lt (i :: p) (j :: q)
| dfs_lt_tail : forall i p q, dfs_lt p q -> dfs_lt (i :: p) (i :: q).

Definition shift (pos : list nat) : list nat :=
  match pos with
  | [] => []
  | i :: pos' => S i :: pos'
  end.

(** The positions of the leaves a call reaches, in the order it reaches
    them. *)
Fixpoint leaf_positions (data : pyvalue) (max_depth current_depth : Z)
    {struct data} : list (list nat) :=
  if current_depth >? max_depth then []
  else
    match data with
    | VDict items =>
        (fix go (items : list (string * pyvalue)) : list (list nat) :=
           match items with
           | [] => []
           | (_, value) :: rest =>
               match value with
               | VDict _ =>
                   map (cons 0%nat)
                     (leaf_positions value max_depth (current_depth + 1))
               | VLeaf _ => [[0%nat]]
               end ++ map shift (go rest)
           end) items
    | VLeaf _ => []
    end.

(** The positions one dictionary entry contributes, relative to the
    entry. *)
Definition entry_positions (max_depth current_depth : Z)
    (kv : string * pyvalue) : list (list nat) :=
  match snd kv with
  | VDict _ =>
      map (cons 0%nat) (leaf_positions (snd kv) max_depth (current_depth + 1))
  | VLeaf _ => [[0%nat]]
  end.

Fixpoint items_positions (max_depth current_depth : Z)
    (items : list (string * pyvalue)) : list (list nat) :=
  match items with
  | [] => []
  | kv :: rest =>
      entry_positions max_depth current_depth kv ++
      map shift (items_positions max_depth current_depth rest)
  end.

(** The descriptor [d] is the one of the leaf at [pos]. *)
Definition describes (data : pyvalue) (prefix : string) (pos : list nat)
    (d : descriptor) : Prop :=
  exists keys l,
    leaf_at data pos keys l /\ d = leaf_descriptor (path_key prefix keys) l.

(** Number of ["."] characters of a string. *)
Fixpoint dots (s : string) : nat :=
  match s with
  | EmptyString => 0
  | String ch s' => (if Ascii.eqb ch "." then 1 else 0) + dots s'
  end.

(** No key of [data], at any level, holds a ["."]. *)
Fixpoint dot_free_keys (data : pyvalue) : bool :=
  match data with
  | VDict items =>
      (fix go (items : list (string * pyvalue)) : bool :=
         match items with
         | [] => true
         | (key, value) :: rest =>
             (dots key =? 0)%nat && dot_free_keys value && go rest
         end) items
  | VLeaf _ => true
  end.

(** How the entry [(key, value)] of a dictionary shows in the result of
    the call on that dictionary, when [full_key] is the key it is given:
    a leaf yields one descriptor under [full_key], a dictionary yields what
    the call on it with prefix [full_key], one level down, returns. *)
Definition entry_shows_as (pre : list (string * pyvalue)) (key : string)
    (value : pyvalue) (post : list (string * pyvalue)) (prefix : string)
    (max_depth current_depth : Z) (full_key : string) : Prop :=
  exists before after,
    analyze (VDict pre) prefix max_depth current_depth = Returns before /\
    analyze (VDict post) prefix max_depth current_depth = Returns after /\
    match value with
    | VDict _ =>
        exists nested,
          analyze value full_key max_depth (current_depth + 1) =
          Returns nested /\
          analyze (VDict (pre ++ (key, value) :: post)) prefix max_depth
            current_depth = Returns (before ++ nested ++ after)
    | VLeaf _ =>
        exists d,
          r_key d = full_key /\
          analyze (VDict (pre ++ (key, value) :: post)) prefix max_depth
            current_depth = Returns (before ++ [d] ++ after)
    end.

(** ** The caller: how [analyze_checkpoint] uses the list *)

(** [sum(item.get('size_bytes', 0) for item in nested_results)]; every
    descriptor holds the key ['size_bytes']. *)
Definition key_size (nested_results : list descriptor) : Z :=
  fold_left (fun total item => total + r_size_bytes item) nested_results 0.

(** [[item for item in nested_results if item.get('type') == 'tensor']] *)
Definition tensor_items (nested_results : list descriptor)
    : list descriptor :=
  filter (fun item => String.eqb (r_type item) "tensor") nested_results.

(** [[item for item in nested_results if item.get('type') != 'tensor']] *)
Definition other_items (nested_results : list descriptor)
    : list descriptor :=
  filter (fun item => negb (String.eqb (r_type item) "tensor")) nested_results.

(** The values the line printed for a tensor item reads from it, in the
    order it reads them: [item['key']], [item['shape']], [item['dtype']]
    and [item['size_bytes']]. *)
Definition tensor_item_fields (item : descriptor)
    : M (string * list Z * string * Z) :=
  shape <- subscript (r_shape item) "shape" ;;
  dtype <- subscript (r_dtype item) "dtype" ;;
  ret (r_key item, shape, dtype, r_size_bytes item).

(** The items of the list object at [xs], as an iteration over it reads
    them. *)
Definition list_items (xs : ref) : M (list descriptor) :=
  fun h => Returns (contents h xs, h).

(** Some leaf of the value that is not a tensor has a type named
    [name]. *)
Fixpoint has_object_named (name : string) (data : pyvalue) : bool :=
  match data with
  | VDict items =>
      (fix go (items : list (string * pyvalue)) : bool :=
         match items with
         | [] => false
         | (_, value) :: rest => has_object_named name value || go rest
         end) items
  | VLeaf (LTensor _) => false
  | VLeaf (LOther o) => String.eqb (type_name o) name
  end.

(** ** Measures of a checkpoint value *)

(** Number of dictionaries nested in one another, the value included. *)
Fixpoint height (data : pyvalue) : nat :=
  match data with
  | VDict items =>
      S ((fix go (items : list (string * pyvalue)) : nat :=
            match items with
            | [] => O
            | (_, value) :: rest => Nat.max (height value) (go rest)
            end) items)
  | VLeaf _ => O
  end.

(** Number of leaves stored in the dictionaries of a value. *)
Fixpoint count_leaves (data : pyvalue) : nat :=
  match data with
  | VDict items =>
      (fix go (items : list (string * pyvalue)) : nat :=
         match items with
         | [] => O
         | (_, value) :: rest =>
             (match value with
              | VDict _ => count_leaves value
              | VLeaf _ => 1
              end + go rest)%nat
         end) items
  | VLeaf _ => O
  end.

(** The byte size recorded for a leaf. *)
Definition leaf_size (l : leaf) : Z :=
  match l with
  | LTensor t => numel t * element_size t
  | LOther o => getsizeof o
  end.

(** Sum of the byte sizes of all leaves stored in the dictionaries of a
    value. *)
Fixpoint tree_size (data : pyvalue) : Z :=
  match data with
  | VDict items =>
      (fix go (items : list (string * pyvalue)) : Z :=
         match items with
         | [] => 0
         | (_, value) :: rest =>
             match value with
             | VDict _ => tree_size value
             | VLeaf l => leaf_size l
             end + go rest
         end) items
  | VLeaf _ => 0
  end.

(** Every leaf of the value has a size that is not negative. *)
Fixpoint sizes_nonneg (data : pyvalue) : Prop :=
  match data with
  | VDict items =>
      (fix go (items : list (string * pyvalue)) : Prop :=
         match items with
         | [] => True
         | (_, value) :: rest =>
             match value with
             | VDict _ => sizes_nonneg value
             | VLeaf l => 0 <= leaf_size l
             end /\ go rest
         end) items
  | VLeaf _ => True
  end.

(** [xs] is [ys] with some elements left out. *)
Inductive subseq {A : Type} : list A -> list A -> Prop :=
| subseq_nil : subseq [] []
| subseq_skip : forall x xs ys, subseq xs ys -> subseq xs (x :: ys)
| subseq_keep : forall x xs ys, subseq xs ys -> subseq (x :: xs) (x :: ys).

(** The descriptor [d] filed under [prefix]. *)
Definition reprefix (prefix : string) (d : descriptor) : descriptor :=
  {| r_key := (prefix ++ "." ++ r_key d)%string;
     r_type := r_type d;
     r_shape := r_shape d;
     r_dtype := r_dtype d;
     r_size_bytes := r_size_bytes d;
     r_device := r_device d;
     r_value_preview := r_value_preview d |}.

(** The keys of every dictionary of the value are pairwise distinct, not
    empty and free of dots. *)
Fixpoint well_keyed (data : pyvalue) : Prop :=
  match data with
  | VDict items =>
      NoDup (map fst items) /\
      (fix go (items : list (string * pyvalue)) : Prop :=
         match items with
         | [] => True
         | (key, value) :: rest =>
             key <> "" /\ dots key = 0%nat /\ well_keyed value /\ go rest
         end) items
  | VLeaf _ => True
  end.

(** [".k1.k2..."] *)
Fixpoint dotted (keys : list string) : string :=
  match keys with
  | [] => ""
  | key :: keys' => ("." ++ key ++ dotted keys')%string
  end.

(** ** Objects whose own code can raise

    [str(o)] and [sys.getsizeof(o)] run code of the object itself
    ([__str__], [__repr__], [__sizeof__]), which the script calls without
    a guard.  The values below keep what each of the two gives: a value,
    or the exception the object raises, named by its class.  [object]
    above is the case where both return. *)

Inductive attempt (A : Type) : Type :=
| Gives (a : A)
| Throws (name : string).

Arguments Gives {A} a.
Arguments Throws {A} name.

Record any_object : Type := AnyObject
  { o_type_name : string;
    o_getsizeof : attempt Z;
    o_callable : bool;
    o_str : attempt string }.

Inductive any_leaf : Type :=
| ATensor (t : tensor)
| AOther (o : any_object).

#[local] Unset Elimination Schemes.
Inductive any_value : Type :=
| ADict (items : list (string * any_value))
| ALeaf (l : any_leaf).
#[local] Set Elimination Schemes.

(** An exception of the script itself, or one raised by an object. *)
Inductive raised : Type :=
| ScriptRaised (e : exception)
| ObjectRaised (name : string).

Inductive reply (A : Type) : Type :=
| Ok (a : A)
| Fail (e : raised).

Arguments Ok {A} a.
Arguments Fail {A} e.

Definition MX (A : Type) : Type := store -> reply (A * store).

Definition retx {A : Type} (a : A) : MX A :=
  fun h => Ok (a, h).

Definition bindx {A B : Type} (m : MX A) (f : A -> MX B) : MX B :=
  fun h =>
    match m h with
    | Ok (a, h') => f a h'
    | Fail e => Fail e
    end.

Notation "x <~ m ;; k" := (bindx m (fun x => k))
  (at level 61, m at next level, right associativity).

(** A computation on the store that can only raise an exception of the
    script. *)
Definition lift {A : Type} (m : M A) : MX A :=
  fun h =>
    match m h with
    | Returns r => Ok r
    | Raises e => Fail (ScriptRaised e)
    end.

(** A call that runs code of the object. *)
Definition builtin {A : Type} (call : attempt A) : MX A :=
  match call with
  | Gives a => retx a
  | Throws name => fun _ => Fail (ObjectRaised name)
  end.

(** [str(value)[:100] if not callable(value) else 'callable'] *)
Definition value_preview (o : any_object) : attempt string :=
  if negb (o_callable o) then
    match o_str o with
    | Gives s => Gives (slice_to 100 s)
    | Throws name => Throws name
    end
  else Gives "callable".

(** [analyze_nested_dict], on values whose objects can raise. *)
Fixpoint analyze_nested_dict_any (data : any_value) (prefix : string)
    (max_depth current_depth : Z) {struct data} : MX ref :=
  results <~ lift new_list ;;
  if current_depth >? max_depth then retx results
  else
    match data with
    | ADict items =>
        done <~
          (fix loop (items : list (string * any_value)) {struct items}
             : MX unit :=
             match items with
             | [] => retx tt
             | (key, value) :: rest =>
                 let full_key :=
                   if truthy prefix then (prefix ++ "." ++ key)%string
                   else key in
                 added <~
                   match value with
                   | ADict _ =>
                       nested <~ analyze_nested_dict_any value full_key
                                   max_depth (current_depth + 1) ;;
                       lift (list_extend results nested)
                   | ALeaf (ATensor t) =>
                       let tensor_info := get_tensor_info (LTensor t) in
                       shape <~ lift (subscript (i_shape tensor_info)
                                        "shape") ;;
                       dtype <~ lift (subscript (i_dtype tensor_info)
                                        "dtype") ;;
                       size_bytes <~ lift (subscript
                                             (i_size_bytes tensor_info)
                                             "size_bytes") ;;
                       device <~ lift (subscript (i_device tensor_info)
                                         "device") ;;
                       lift (list_append results
                               {| r_key := full_key;
                                  r_type := "tensor";
                                  r_shape := Some shape;
                                  r_dtype := Some dtype;
                                  r_size_bytes := size_bytes;
                                  r_device := Some device;
                                  r_value_preview := None |})
                   | ALeaf (AOther o) =>
                       size_bytes <~ builtin (o_getsizeof o) ;;
                       preview <~ builtin (value_preview o) ;;
                       lift (list_append results
                               {| r_key := full_key;
                                  r_type := o_type_name o;
                                  r_shape := None;
                                  r_dtype := None;
                                  r_size_bytes := size_bytes;
                                  r_device := None;
                                  r_value_preview := Some preview |})
                   end ;;
                 loop rest
             end) items ;;
        retx results
    | ALeaf _ => retx results
    end.

(** What a caller that runs [prog] in the store [h] gets back. *)
Definition returned_any (prog : MX ref) (h : store)
    : reply (list descriptor) :=
  match prog h with
  | Ok (r, h') => Ok (contents h' r)
  | Fail e => Fail e
  end.

(** A call from a caller that holds no list object yet. *)
Definition analyze_any (data : any_value) (prefix : string)
    (max_depth current_depth : Z) : reply (list descriptor) :=
  returned_any
    (analyze_nested_dict_any data prefix max_depth current_depth) [].

(** The size [analyze_checkpoint] records in [key_sizes[key]] for the
    top-level entry [(key, value)], by the three branches of its loop:
    a dictionary is walked with the default depth arguments and the sizes
    of the result are summed; a tensor gives ['size_bytes'] of its
    [get_tensor_info]; any other value gives [sys.getsizeof]. *)
Definition recorded_size_any (key : string) (value : any_value) : MX Z :=
  match value with
  | ADict _ =>
      nested_results <~ analyze_nested_dict_any value key 3 0 ;;
      items <~ lift (list_items nested_results) ;;
      retx (key_size items)
  | ALeaf (ATensor t) =>
      let tensor_info := get_tensor_info (LTensor t) in
      lift (subscript (i_size_bytes tensor_info) "size_bytes")
  | ALeaf (AOther o) => builtin (o_getsizeof o)
  end.

(** Structural induction on these values. *)
Definition any_value_ind (P : any_value -> Prop)
    (Hdict : forall items,
       Forall (fun kv => P (snd kv)) items -> P (ADict items))
    (Hleaf : forall l, P (ALeaf l)) : forall v, P v :=
  fix F (v : any_value) : P v :=
    match v with
    | ADict items =>
        Hdict items
          ((fix G (its : list (string * any_value)) :
              Forall (fun kv => P (snd kv)) its :=
              match its with
              | [] => Forall_nil _
              | kv :: rest => Forall_cons kv (F (snd kv)) (G rest)
              end) items)
    | ALeaf l => Hleaf l
    end.

(** The value found by following item indices, with the keys passed. *)
Fixpoint any_node_at (data : any_value) (pos : list nat) :
    option (list string * any_value) :=
  match pos with
  | [] => Some ([], data)
  | i :: pos' =>
      match data with
      | ADict items =>
          match nth_error items i with
          | Some (key, value) =>
              match any_node_at value pos' with
              | Some (keys, x) => Some (key :: keys, x)
              | None => None
              end
          | None => None
          end
      | ALeaf _ => None
      end
  end.

Definition any_leaf_at (data : any_value) (pos : list nat)
    (keys : list string) (l : any_leaf) : Prop :=
  pos <> [] /\ any_node_at data pos = Some (keys, ALeaf l).

(** The descriptor [d] is the one the program builds for the leaf at
    [pos], all the builtins called on that leaf having returned. *)
Definition any_describes (data : any_value) (prefix : string)
    (pos : list nat) (d : descriptor) : Prop :=
  exists keys l,
    any_leaf_at data pos keys l /\
    match l with
    | ATensor t => d = leaf_descriptor (path_key prefix keys) (LTensor t)
    | AOther o =>
        exists n p,
          o_getsizeof o = Gives n /\ value_preview o = Gives p /\
          d = {| r_key := path_key prefix keys;
                 r_type := o_type_name o;
                 r_shape := None;
                 r_dtype := None;
                 r_size_bytes := n;
                 r_device := None;
                 r_value_preview := Some p |}
    end.

(** The exception an object raises when its descriptor is built, if it
    raises one: that of [sys.getsizeof], else that of the preview. *)
Definition object_raises (o : any_object) : option string :=
  match o_getsizeof o with
  | Throws name => Some name
  | Gives _ =>
      match value_preview o with
      | Throws name => Some name
      | Gives _ => None
      end
  end.

(** The exception of the first leaf, in the order of the walk, whose
    descriptor cannot be built. *)
Fixpoint first_raised (data : any_value) (max_depth current_depth : Z)
    {struct data} : option string :=
  if current_depth >? max_depth then None
  else
    match data with
    | ADict items =>
        (fix go (items : list (string * any_value)) : option string :=
           match items with
           | [] => None
           | (_, value) :: rest =>
               match
                 match value with
                 | ADict _ => first_raised value max_depth (current_depth + 1)
                 | ALeaf (ATensor _) => None
                 | ALeaf (AOther o) => object_raises o
                 end
               with
               | Some name => Some name
               | None => go rest
               end
           end) items
    | ALeaf _ => None
    end.

Definition entry_raised (max_depth current_depth : Z)
    (kv : string * any_value) : option string :=
  match snd kv with
  | ADict _ => first_raised (snd kv) max_depth (current_depth + 1)
  | ALeaf (ATensor _) => None
  | ALeaf (AOther o) => object_raises o
  end.

Fixpoint items_raised (max_depth current_depth : Z)
    (items : list (string * any_value)) : option string :=
  match items with
  | [] => None
  | kv :: rest =>
      match entry_raised max_depth current_depth kv with
      | Some name => Some name
      | None => items_raised max_depth current_depth rest
      end
  end.

(** The object as [object] has it; what a builtin that raises would have
    given is filled in and never looked at where the walk returns. *)
Definition as_object (o : any_object) : object :=
  {| type_name := o_type_name o;
     getsizeof := match o_getsizeof o with Gives n => n | Throws _ => 0 end;
     callable := o_callable o;
     str := match o_str o with Gives s => s | Throws _ => "" end |}.

Definition as_leaf (l : any_leaf) : leaf :=
  match l with
  | ATensor t => LTensor t
  | AOther o => LOther (as_object o)
  end.

Fixpoint as_value (data : any_value) : pyvalue :=
  match data with
  | ADict items =>
      VDict ((fix go (items : list (string * any_value))
                : list (string * pyvalue) :=
                match items with
                | [] => []
                | (key, value) :: rest => (key, as_value value) :: go rest
                end) items)
  | ALeaf l => VLeaf (as_leaf l)
  end.

(** ** [format_size] *)

(** Python floats, through the operations [format_size] applies to them:
    [float(n)] for an [int] [n] ([None] when it raises [OverflowError]),
    [x / 1024.0], [x >= 1024], [x == 0] and the text of [f"{x:.2f}"]. *)
Class FloatOps : Type :=
  { float : Type;
    float_of_int : Z -> option float;
    float_div_1024 : float -> float;
    float_ge_1024 : float -> bool;
    float_eq_0 : float -> bool;
    format_2f : float -> string }.

(** The value of [size_bytes]: an [int] or a [float]. *)
Inductive number {F : FloatOps} : Type :=
| NInt (n : Z)
| NFloat (x : float).

Inductive py_error : Type :=
| OverflowError
| IndexError.

(** The end of a run: a value, an exception, or no fuel left for the
    [while] loop. *)
Inductive run (A : Type) : Type :=
| Done (a : A)
| Raised (e : py_error)
| OutOfFuel.

Arguments Done {A} a.
Arguments Raised {A} e.
Arguments OutOfFuel {A}.

Definition size_names : list string := ["B"; "KB"; "MB"; "GB"; "TB"].

(** [size_bytes == 0] *)
Definition number_eq_0 {F : FloatOps} (size_bytes : number) : bool :=
  match size_bytes with
  | NInt n => n =? 0
  | NFloat x => float_eq_0 x
  end.

(** [size_bytes >= 1024] *)
Definition number_ge_1024 {F : FloatOps} (size_bytes : number) : bool :=
  match size_bytes with
  | NInt n => 1024 <=? n
  | NFloat x => float_ge_1024 x
  end.

(** [size_bytes / 1024.0]: an [int] is converted first. *)
Definition number_div_1024 {F : FloatOps} (size_bytes : number)
    : option number :=
  match size_bytes with
  | NInt n =>
      match float_of_int n with
      | Some x => Some (NFloat (float_div_1024 x))
      | None => None
      end
  | NFloat x => Some (NFloat (float_div_1024 x))
  end.

(** [f"{size_bytes:.2f}"]: an [int] is converted first. *)
Definition number_format_2f {F : FloatOps} (size_bytes : number)
    : option string :=
  match size_bytes with
  | NInt n =>
      match float_of_int n with
      | Some x => Some (format_2f x)
      | None => None
      end
  | NFloat x => Some (format_2f x)
  end.

(** The [while] loop of [format_size], from the state [(size_bytes, i)]. *)
Fixpoint format_size_loop {F : FloatOps} (fuel : nat) (size_bytes : number)
    (i : nat) {struct fuel} : run (number * nat) :=
  if number_ge_1024 size_bytes && (i <? List.length size_names - 1)%nat then
    match fuel with
    | O => OutOfFuel
    | S fuel' =>
        match number_div_1024 size_bytes with
        | Some size_bytes' => format_size_loop fuel' size_bytes' (i + 1)
        | None => Raised OverflowError
        end
    end
  else Done (size_bytes, i).

Definition format_size {F : FloatOps} (size_bytes : number) : run string :=
  if number_eq_0 size_bytes then Done "0B"
  else
    match format_size_loop (List.length size_names) size_bytes 0 with
    | Done (size_bytes', i) =>
        match number_format_2f size_bytes' with
        | Some text =>
            match nth_error size_names i with
            | Some name => Done (text ++ name)%string
            | None => Raised IndexError
            end
        | None => Raised OverflowError
        end
    | Raised e => Raised e
    | OutOfFuel => OutOfFuel
    end.

(** [size_bytes] after [k] rounds of [size_bytes /= 1024.0]. *)
Fixpoint scaled {F : FloatOps} (size_bytes : number) (k : nat)
    : option number :=
  match k with
  | O => Some size_bytes
  | S k' =>
      match number_div_1024 size_bytes with
      | Some size_bytes' => scaled size_bytes' k'
      | None => None
      end
  end.

(** *** Floats without rounding

    An instance that computes with rationals: it agrees with the floats of
    Python as long as these are exact, which they are for an [int] below
    [2^53] divided by powers of 1024.  It serves for concrete runs. *)

(** [q * 100] rounded to the nearest integer, halves to the even one. *)
Definition round_cents (q : Q) : Z :=
  let n := Qnum q * 100 in
  let d := Zpos (Qden q) in
  let low := n / d in
  let twice := 2 * (n mod d) in
  if twice <? d then low
  else if d <? twice then low + 1
  else if Z.even low then low else low + 1.

Definition digits (n : Z) : string :=
  NilZero.string_of_uint (N.to_uint (Z.to_N n)).

Definition exact_format_2f (q : Q) : string :=
  let cents := Z.abs (round_cents q) in
  let frac := cents mod 100 in
  ((if (Qnum q <? 0)%Z then "-" else "") ++
   digits (cents / 100)%Z ++ "." ++
   (if (frac <? 10)%Z then "0" else "") ++ digits frac)%string.

#[export] Instance exact_floats : FloatOps :=
  {| float := Q;
     float_of_int := fun n => Some (inject_Z n);
     float_div_1024 := fun x => Qred (x / 1024);
     float_ge_1024 := fun x => Qle_bool 1024 x;
     float_eq_0 := fun x => Qeq_bool x 0;
     format_2f := exact_format_2f |}.

(** ** Sample checkpoints *)

Module Samples.

Definition float32_2x2 : tensor :=
  {| shape := [2; 2]; dtype := "torch.float32"; numel := 4;
     element_size := 4; device := "cpu" |}.

Definition int_obj (repr : string) : object :=
  {| type_name := "int"; getsizeof := 28; callable := false; str := repr |}.

Definition function_obj : object :=
  {| type_name := "function"; getsizeof := 144; callable := true;
     str := "<function f at 0x7f0000000000>" |}.

(** [{"a": {"b": tensor(2x2, float32)}, "c": 5}] *)
Definition two_entries : pyvalue :=
  VDict [("a", VDict [("b", VLeaf (LTensor float32_2x2))]);
         ("c", VLeaf (LOther (int_obj "5")))].

(** A chain of dictionaries with one leaf at each of the depths 0 to 5:
    [{"l0": 0, "n1": {"l1": 1, "n2": {"l2": 2, ... {"l5": 5}}}}]. *)
Definition nested5 : pyvalue :=
  VDict [("l0", VLeaf (LOther (int_obj "0")));
         ("n1", VDict [("l1", VLeaf (LOther (int_obj "1")));
           ("n2", VDict [("l2", VLeaf (LOther (int_obj "2")));
             ("n3", VDict [("l3", VLeaf (LOther (int_obj "3")));
               ("n4", VDict [("l4", VLeaf (LOther (int_obj "4")));
                 ("n5", VDict [("l5", VLeaf (LOther (int_obj "5")))])])])])])].

(** A string of 120 characters, as the [str] of a long text. *)
Definition long_text_obj : object :=
  {| type_name := "str"; getsizeof := 169; callable := false;
     str := string_of_list_ascii (repeat "x"%char 120) |}.

(** An instance of a class that is named [tensor] and is not a
    [torch.Tensor]. *)
Definition tensor_named_obj : object :=
  {| type_name := "tensor"; getsizeof := 48; callable := false;
     str := "<tensor object at 0x7f0000000000>" |}.

(** [{"f": f, "empty": {}}] with [f] a function. *)
Definition with_callable : pyvalue :=
  VDict [("f", VLeaf (LOther function_obj)); ("empty", VDict [])].

(** An object whose [__str__] raises [ValueError]. *)
Definition broken_str_obj : any_object :=
  {| o_type_name := "Broken"; o_getsizeof := Gives 48; o_callable := false;
     o_str := Throws "ValueError" |}.

Definition any_int_obj (repr : string) : any_object :=
  {| o_type_name := "int"; o_getsizeof := Gives 28; o_callable := false;
     o_str := Gives repr |}.

(** [{"epoch": 5, "bad": b}] with [b] the object above. *)
Definition with_broken_str : any_value :=
  ADict [("epoch", ALeaf (AOther (any_int_obj "5")));
         ("bad", ALeaf (AOther broken_str_obj))].

(** [{"outer": {"note": 7}, "c": 5}] *)
Definition nested_note : any_value :=
  ADict [("outer", ADict [("note", ALeaf (AOther (any_int_obj "7")))]);
         ("c", ALeaf (AOther (any_int_obj "5")))].

(** [{"w": <2x2 float32>, "step": 5}] *)
Definition any_state : any_value :=
  ADict [("w", ALeaf (ATensor float32_2x2));
         ("step", ALeaf (AOther (any_int_obj "5")))].

End Samples.

(** * Lemmas *)

(** ** Generic list facts *)

Section ListFacts.
Context {A B C : Type}.

Lemma Forall2_map_left (R : B -> C -> Prop) (f : A -> B) xs ys :
  Forall2 (fun x y => R (f x) y) xs ys -> Forall2 R (map f xs) ys.
Proof. induction 1; simpl; constructor; assumption. Qed.

Lemma StronglySorted_app (R : A -> A -> Prop) xs ys :
  StronglySorted R xs -> StronglySorted R ys ->
  (forall x y, In x xs -> In y ys -> R x y) ->
  StronglySorted R (xs ++ ys).
Proof.
  induction 1 as [|x xs Hs IH Hall]; intros Hys Hcross; simpl;
    [exact Hys|].
  constructor.
  - apply IH; [exact Hys|]. intros a b Ha. apply Hcross. now right.
  - apply Forall_app. split; [exact Hall|].
    apply Forall_forall. intros b Hb. apply Hcross; [now left | exact Hb].
Qed.

Lemma StronglySorted_map (R : A -> A -> Prop) (R' : B -> B -> Prop)
    (f : A -> B) xs :
  (forall x y, In x xs -> In y xs -> R x y -> R' (f x) (f y)) ->
  StronglySorted R xs -> StronglySorted R' (map f xs).
Proof.
  intros Hf Hs. induction Hs as [|x xs Hs IH Hall]; simpl; constructor.
  - apply IH. intros a b Ha Hb. apply Hf; now right.
  - apply Forall_map, Forall_forall. intros b Hb.
    apply Hf; [now left | now right |].
    rewrite Forall_forall in Hall. now apply Hall.
Qed.

Lemma StronglySorted_NoDup (R : A -> A -> Prop) xs :
  (forall x, ~ R x x) -> StronglySorted R xs -> NoDup xs.
Proof.
  intros Hirr. induction 1 as [|x xs Hs IH Hall]; constructor; [|exact IH].
  intros Hin. rewrite Forall_forall in Hall. exact (Hirr x (Hall x Hin)).
Qed.
End ListFacts.

(** ** The list a call returns *)

Lemma walk_dict items prefix max_depth current_depth :
  walk (VDict items) prefix max_depth current_depth =
  if current_depth >? max_depth then []
  else flat_map (entry_results prefix max_depth current_depth) items.
Proof.
  simpl. destruct (current_depth >? max_depth); [reflexivity|].
  induction items as [|[key value] rest IH]; simpl; [reflexivity|].
  now rewrite IH.
Qed.

Lemma update_middle {A : Type} (f : A -> A) (xs : list A) x ys :
  update (List.length xs) f (xs ++ x :: ys) = xs ++ f x :: ys.
Proof. induction xs as [|a xs IH]; simpl; [reflexivity | now rewrite IH]. Qed.

Lemma contents_middle (h : store) xs g :
  contents (h ++ xs :: g) (List.length h) = xs.
Proof. unfold contents. apply nth_middle. Qed.

Lemma analyze_nested_dict_run data :
  forall prefix max_depth current_depth h,
  exists g,
    analyze_nested_dict data prefix max_depth current_depth h =
    Returns (List.length h,
             h ++ walk data prefix max_depth current_depth :: g).
Proof.
  induction data as [items IH|l] using pyvalue_ind;
    intros prefix max_depth current_depth h.
  - rewrite walk_dict. simpl. unfold bind at 1. simpl.
    destruct (current_depth >? max_depth).
    { exists []. reflexivity. }
    match goal with
    | |- exists g, bind (?f items) _ _ = _ =>
        assert (Hloop : forall acc g0, exists g',
                   f items (h ++ acc :: g0) =
                   Returns (tt, h ++ (acc ++ flat_map
                      (entry_results prefix max_depth current_depth) items)
                      :: g'))
    end.
    { induction IH as [|[key value] rest Hv _ IHrest]; intros acc g0.
      - exists g0. simpl. now rewrite app_nil_r.
      - cbn [flat_map]. unfold entry_results at 1. cbn [fst snd].
        set (full_key := if truthy prefix then _ else _).
        assert (Hstep : forall x : list descriptor,
                   update (List.length h) (fun l => l ++ x)
                     (h ++ acc :: g0) = h ++ (acc ++ x) :: g0)
          by (intros x; exact (update_middle (fun l => l ++ x) h acc g0)).
        destruct value as [sub|[t|o]]; cbn [snd] in Hv.
        + destruct (Hv full_key max_depth (current_depth + 1)
                      (h ++ acc :: g0)) as [g1 Hrun].
          destruct (IHrest
                      (acc ++ walk (VDict sub) full_key max_depth
                                (current_depth + 1))
                      (g0 ++ walk (VDict sub) full_key max_depth
                               (current_depth + 1) :: g1)) as [g' Hrest].
          exists g'. rewrite app_assoc, <- Hrest.
          unfold bind at 1. fold full_key. unfold bind at 1.
          rewrite Hrun. unfold list_extend.
          rewrite contents_middle, <- app_assoc. cbn [app].
          now rewrite update_middle.
        + destruct (IHrest (acc ++ [leaf_descriptor full_key (LTensor t)]) g0)
            as [g' Hrest].
          exists g'. rewrite app_assoc, <- Hrest.
          unfold bind at 1. fold full_key. cbn. now rewrite Hstep.
        + destruct (IHrest (acc ++ [leaf_descriptor full_key (LOther o)]) g0)
            as [g' Hrest].
          exists g'. rewrite app_assoc, <- Hrest.
          unfold bind at 1. fold full_key. cbn. rewrite Hstep.
          now destruct (callable o). }
    destruct (Hloop [] []) as [g Hg]. exists g.
    unfold bind at 1. rewrite Hg. reflexivity.
  - exists []. simpl. unfold bind. simpl.
    now destruct (current_depth >? max_depth).
Qed.

Lemma walk_leaf l prefix max_depth current_depth :
  walk (VLeaf l) prefix max_depth current_depth = [].
Proof. simpl. now destruct (current_depth >? max_depth). Qed.

(** In whatever store it runs, the call returns a list whose contents are
    [walk] of its arguments. *)
Lemma returned_walk data prefix max_depth current_depth h :
  returned (analyze_nested_dict data prefix max_depth current_depth) h =
  Returns (walk data prefix max_depth current_depth).
Proof.
  unfold returned.
  destruct (analyze_nested_dict_run data prefix max_depth current_depth h)
    as [g ->].
  now rewrite contents_middle.
Qed.

Lemma analyze_walk data prefix max_depth current_depth :
  analyze data prefix max_depth current_depth =
  Returns (walk data prefix max_depth current_depth).
Proof. apply returned_walk. Qed.

(** ** Positions of the leaves a call reaches *)

Create HintDb dfs.
#[local] Hint Constructors dfs_lt : dfs.
#[local] Hint Extern 1 (_ < _)%nat => lia : dfs.

Lemma dfs_lt_irrefl pos : ~ dfs_lt pos pos.
Proof.
  induction pos as [|i pos IH]; intros H; inversion H; subst;
    [lia | now apply IH].
Qed.

Lemma dfs_lt_trans p q r : dfs_lt p q -> dfs_lt q r -> dfs_lt p r.
Proof.
  intros Hpq. revert r.
  induction Hpq as [i q|i j p q Hij|i p q Hpq IH]; intros r Hqr;
    inversion Hqr; subst; auto with dfs.
Qed.

Lemma leaf_positions_dict items max_depth current_depth :
  leaf_positions (VDict items) max_depth current_depth =
  if current_depth >? max_depth then []
  else items_positions max_depth current_depth items.
Proof.
  simpl. destruct (current_depth >? max_depth); [reflexivity|].
  induction items as [|[key value] rest IH]; simpl; [reflexivity|].
  rewrite IH. unfold entry_positions; simpl. now destruct value.
Qed.

Lemma leaf_positions_leaf l max_depth current_depth :
  leaf_positions (VLeaf l) max_depth current_depth = [].
Proof. simpl. now destruct (current_depth >? max_depth). Qed.

Lemma node_at_shift kv rest pos :
  pos <> [] ->
  node_at (VDict (kv :: rest)) (shift pos) = node_at (VDict rest) pos.
Proof. destruct pos as [|i pos]; [congruence | reflexivity]. Qed.

Lemma node_at_leaf_root l pos keys x :
  node_at (VLeaf l) pos = Some (keys, x) -> pos = [].
Proof. destruct pos; [reflexivity | discriminate]. Qed.

Lemma leaf_at_head key value rest pos keys l :
  leaf_at value pos keys l ->
  leaf_at (VDict ((key, value) :: rest)) (0%nat :: pos) (key :: keys) l.
Proof.
  intros [_ Hn]. split; [discriminate|]. simpl. now rewrite Hn.
Qed.

Lemma leaf_at_here key l rest :
  leaf_at (VDict ((key, VLeaf l) :: rest)) [0%nat] [key] l.
Proof. split; [discriminate | reflexivity]. Qed.

Lemma leaf_at_shift kv rest pos keys l :
  leaf_at (VDict rest) pos keys l ->
  leaf_at (VDict (kv :: rest)) (shift pos) keys l.
Proof.
  intros [Hne Hn]. split.
  - destruct pos; [congruence | discriminate].
  - now rewrite node_at_shift.
Qed.

(** The list holds, position by position, the descriptor of the leaf
    found there. *)
Lemma walk_describes data :
  forall prefix max_depth current_depth,
    Forall2 (describes data prefix)
      (leaf_positions data max_depth current_depth)
      (walk data prefix max_depth current_depth).
Proof.
  induction data as [items IH|l] using pyvalue_ind;
    intros prefix max_depth current_depth.
  - rewrite leaf_positions_dict, walk_dict.
    destruct (current_depth >? max_depth); [constructor|].
    induction IH as [|[key value] rest Hv _ IHrest]; simpl; [constructor|].
    apply Forall2_app.
    + unfold entry_positions, entry_results; simpl.
      set (full_key := if truthy prefix then _ else _).
      destruct value as [sub|l].
      * apply Forall2_map_left.
        eapply Forall2_impl; [|apply (Hv full_key)].
        intros pos d (keys & l & Hl & ->).
        exists (key :: keys), l. split; [now apply leaf_at_head|reflexivity].
      * repeat constructor. exists [key], l.
        split; [apply leaf_at_here | reflexivity].
    + apply Forall2_map_left.
      eapply Forall2_impl; [|exact IHrest].
      intros pos d (keys & l & Hl & ->).
      exists keys, l. split; [now apply leaf_at_shift | reflexivity].
  - rewrite leaf_positions_leaf, walk_leaf. constructor.
Qed.

(** A position is reached exactly when it leads to a leaf and the
    dictionary holding that leaf is at depth at most [max_depth]. *)
Lemma leaf_positions_spec data :
  forall max_depth current_depth pos,
    In pos (leaf_positions data max_depth current_depth) <->
    (exists keys l, leaf_at data pos keys l) /\
    current_depth + Z.of_nat (List.length pos) - 1 <= max_depth.
Proof.
  induction data as [items IH|l] using pyvalue_ind;
    intros max_depth current_depth pos.
  - rewrite leaf_positions_dict.
    destruct (Z.gtb_spec current_depth max_depth) as [Hgt|Hle].
    { split; [intros []|].
      intros [(keys & l & Hne & _) Hd]. destruct pos; [congruence|].
      simpl List.length in Hd. lia. }
    revert pos.
    induction IH as [|[key value] rest Hv _ IHrest]; intros pos; simpl.
    { split; [intros []|]. intros [(keys & l & Hne & Hn) _].
      destruct pos as [|[|i] pos]; [congruence | discriminate..]. }
    rewrite in_app_iff, in_map_iff. split.
    + intros [Hhead|(q & <- & Hq)].
      * unfold entry_positions in Hhead; simpl in Hhead.
        destruct value as [sub|l].
        -- apply in_map_iff in Hhead as (q & <- & Hq).
           apply Hv in Hq as [(keys & l & Hl) Hd]. split.
           ++ exists (key :: keys), l. now apply leaf_at_head.
           ++ simpl List.length. lia.
        -- destruct Hhead as [<-|[]]. split.
           ++ exists [key], l. apply leaf_at_here.
           ++ simpl. lia.
      * apply IHrest in Hq as [(keys & l & Hl) Hd]. split.
        -- exists keys, l. now apply leaf_at_shift.
        -- destruct Hl as [Hne _]. destruct q; [congruence | exact Hd].
    + intros [(keys & l & Hne & Hn) Hd].
      destruct pos as [|[|i] q]; [congruence | |].
      * left. unfold entry_positions; simpl. simpl in Hn.
        destruct q as [|j q].
        -- simpl in Hn. destruct value as [sub|l']; [discriminate|].
           now left.
        -- destruct value as [sub|l']; [|discriminate].
           apply in_map. apply Hv. split.
           ++ destruct (node_at (VDict sub) (j :: q)) as [[keys' x]|] eqn:E;
                [|discriminate].
              injection Hn as <- ->. exists keys', l.
              split; [discriminate | exact E].
           ++ simpl List.length in *. lia.
      * right. exists (i :: q). split; [reflexivity|]. apply IHrest. split.
        -- exists keys, l. split; [discriminate | exact Hn].
        -- exact Hd.
  - rewrite leaf_positions_leaf. split; [intros []|].
    intros [(keys & l' & Hne & Hn) _].
    apply node_at_leaf_root in Hn. congruence.
Qed.

Lemma leaf_positions_nonempty data max_depth current_depth pos :
  In pos (leaf_positions data max_depth current_depth) -> pos <> [].
Proof.
  intros H. apply leaf_positions_spec in H as [(keys & l & Hne & _) _].
  exact Hne.
Qed.

(** The walk reaches the leaves in depth-first order. *)
Lemma leaf_positions_sorted data :
  forall max_depth current_depth,
    StronglySorted dfs_lt (leaf_positions data max_depth current_depth).
Proof.
  induction data as [items IH|l] using pyvalue_ind;
    intros max_depth current_depth.
  - assert (Hne : forall pos,
               In pos (leaf_positions (VDict items) max_depth current_depth) ->
               pos <> []) by (intros pos; apply leaf_positions_nonempty).
    rewrite leaf_positions_dict in *.
    destruct (current_depth >? max_depth); [constructor|].
    induction IH as [|[key value] rest Hv _ IHrest]; simpl; [constructor|].
    assert (Hrest : forall pos,
               In pos (items_positions max_depth current_depth rest) ->
               pos <> []).
    { intros pos Hin [= ->].
      apply (Hne (shift [])); [|reflexivity].
      simpl. apply in_or_app. right. now apply (in_map shift) in Hin. }
    apply StronglySorted_app.
    + unfold entry_positions; simpl. destruct value as [sub|l].
      * eapply StronglySorted_map; [|apply Hv].
        intros p q _ _ Hpq. now apply dfs_lt_tail.
      * repeat constructor.
    + eapply StronglySorted_map; [|exact (IHrest Hrest)].
      intros p q Hp Hq Hpq.
      destruct p as [|i p]; [now apply Hrest in Hp|].
      destruct q as [|j q]; [now apply Hrest in Hq|].
      simpl. inversion Hpq; subst.
      * apply dfs_lt_head. lia.
      * now apply dfs_lt_tail.
    + intros p q Hp Hq.
      apply in_map_iff in Hq as (q' & <- & Hq').
      destruct q' as [|j q']; [now apply Hrest in Hq'|]. simpl.
      unfold entry_positions in Hp; simpl in Hp.
      destruct value as [sub|l].
      * apply in_map_iff in Hp as (p' & <- & _). apply dfs_lt_head. lia.
      * destruct Hp as [<-|[]]. apply dfs_lt_head. lia.
  - rewrite leaf_positions_leaf. constructor.
Qed.


(** ** Further facts used by the properties *)

Lemma Forall2_ex_right {A B : Type} (R : A -> B -> Prop) xs ys x :
  Forall2 R xs ys -> In x xs -> exists y, In y ys /\ R x y.
Proof.
  induction 1 as [|a b xs ys Hab _ IH]; intros Hin; [destruct Hin|].
  destruct Hin as [->|Hin].
  - exists b. split; [now left | exact Hab].
  - destruct (IH Hin) as (y & Hy & Hxy). exists y. split; [now right|exact Hxy].
Qed.

Lemma Forall2_ex_left {A B : Type} (R : A -> B -> Prop) xs ys y :
  Forall2 R xs ys -> In y ys -> exists x, In x xs /\ R x y.
Proof.
  induction 1 as [|a b xs ys Hab _ IH]; intros Hin; [destruct Hin|].
  destruct Hin as [->|Hin].
  - exists a. split; [now left | exact Hab].
  - destruct (IH Hin) as (x & Hx & Hxy). exists x. split; [now right|exact Hxy].
Qed.

(** A leaf within the depth bound has its descriptor in the list, and the
    list holds nothing but such descriptors. *)
Lemma walk_holds_leaf data prefix max_depth current_depth pos keys l :
  leaf_at data pos keys l ->
  current_depth + Z.of_nat (List.length pos) - 1 <= max_depth ->
  In (leaf_descriptor (path_key prefix keys) l)
    (walk data prefix max_depth current_depth).
Proof.
  intros Hleaf Hdepth.
  assert (Hin : In pos (leaf_positions data max_depth current_depth))
    by (apply leaf_positions_spec; split; [now exists keys, l | exact Hdepth]).
  destruct (Forall2_ex_right _ _ _ _
              (walk_describes data prefix max_depth current_depth) Hin)
    as (d & Hd & keys' & l' & [_ Hn'] & ->).
  destruct Hleaf as [_ Hn]. rewrite Hn in Hn'. now injection Hn' as <- <-.
Qed.

Lemma walk_only_leaves data prefix max_depth current_depth d :
  In d (walk data prefix max_depth current_depth) ->
  exists pos keys l,
    leaf_at data pos keys l /\
    current_depth + Z.of_nat (List.length pos) - 1 <= max_depth /\
    d = leaf_descriptor (path_key prefix keys) l.
Proof.
  intros Hd.
  destruct (Forall2_ex_left _ _ _ _
              (walk_describes data prefix max_depth current_depth) Hd)
    as (pos & Hpos & keys & l & Hl & ->).
  apply leaf_positions_spec in Hpos as [_ Hdepth].
  now exists pos, keys, l.
Qed.

Lemma walk_dict_app xs ys prefix max_depth current_depth :
  walk (VDict (xs ++ ys)) prefix max_depth current_depth =
  walk (VDict xs) prefix max_depth current_depth ++
  walk (VDict ys) prefix max_depth current_depth.
Proof.
  rewrite !walk_dict. destruct (current_depth >? max_depth); [reflexivity|].
  apply flat_map_app.
Qed.

Lemma walk_dict_cons kv rest prefix max_depth current_depth :
  current_depth <= max_depth ->
  walk (VDict (kv :: rest)) prefix max_depth current_depth =
  entry_results prefix max_depth current_depth kv ++
  walk (VDict rest) prefix max_depth current_depth.
Proof.
  intros Hle. rewrite !walk_dict.
  destruct (Z.gtb_spec current_depth max_depth); [lia | reflexivity].
Qed.

Lemma walk_over_depth data prefix max_depth current_depth :
  current_depth > max_depth ->
  walk data prefix max_depth current_depth = [].
Proof.
  intros Hgt. destruct data as [items|l]; [|apply walk_leaf].
  rewrite walk_dict.
  destruct (Z.gtb_spec current_depth max_depth); [reflexivity | lia].
Qed.

Lemma node_at_length data : forall pos keys x,
  node_at data pos = Some (keys, x) -> List.length keys = List.length pos.
Proof.
  induction data as [items IH|l] using pyvalue_ind; intros pos keys x Hn.
  - destruct pos as [|i pos]; [now injection Hn as <- _|].
    simpl in Hn.
    destruct (nth_error items i) as [[key value]|] eqn:Hi; [|discriminate].
    destruct (node_at value pos) as [[keys' x']|] eqn:Hv; [|discriminate].
    injection Hn as <- _. simpl. f_equal.
    rewrite Forall_forall in IH.
    apply (IH (key, value) (nth_error_In _ _ Hi) pos keys' x' Hv).
  - destruct pos; [now injection Hn as <- _ | discriminate].
Qed.

(** What lies below a dictionary that is not entered has no effect on the
    list. *)
Lemma walk_replace_at max_depth sub' : forall pos data prefix current_depth keys sub,
  node_at data pos = Some (keys, VDict sub) ->
  current_depth + Z.of_nat (List.length pos) > max_depth ->
  walk (replace_at data pos (VDict sub')) prefix max_depth current_depth =
  walk data prefix max_depth current_depth.
Proof.
  induction pos as [|i pos IH]; intros data prefix current_depth keys sub Hn Hd.
  - simpl in Hd. injection Hn as _ ->. simpl replace_at.
    rewrite !walk_over_depth; [reflexivity | lia..].
  - destruct data as [items|l]; [|discriminate]. simpl in Hn. simpl replace_at.
    destruct (Z.gtb_spec current_depth max_depth) as [Hgt|Hle];
      [rewrite !walk_over_depth; [reflexivity | lia..]|].
    simpl List.length in Hd. revert i Hn.
    induction items as [|[key value] rest IHitems]; intros i Hn;
      [destruct i; discriminate|].
    destruct i as [|i]; simpl in Hn; cbn [update].
    + rewrite !walk_dict_cons by exact Hle. f_equal.
      unfold entry_results; cbn [fst snd].
      destruct (node_at value pos) as [[keys' x]|] eqn:Hv; [|discriminate].
      injection Hn as _ ->.
      set (full_key := if truthy prefix then _ else _).
      assert (Hsame :
        walk (replace_at value pos (VDict sub')) full_key max_depth
          (current_depth + 1) =
        walk value full_key max_depth (current_depth + 1)).
      { apply (IH value full_key (current_depth + 1) keys' sub Hv). lia. }
      destruct pos as [|j pos].
      * injection Hv as _ ->. exact Hsame.
      * destruct value as [items'|l]; [|discriminate]. exact Hsame.
    + rewrite !walk_dict_cons by exact Hle. f_equal. now apply IHitems.
Qed.

(** [slice_to n s] is the text of [s] up to its [n]-th character. *)
Lemma slice_to_prefix n : forall s,
  exists rest, s = (slice_to n s ++ rest)%string.
Proof.
  induction n as [|n IH]; intros s.
  - exists s. reflexivity.
  - destruct s as [|ch s]; [now exists EmptyString|].
    destruct (IH s) as [rest Hrest]. exists rest.
    unfold slice_to; fold slice_to. simpl. now rewrite <- Hrest.
Qed.

Lemma slice_to_length n : forall s,
  String.length (slice_to n s) = Nat.min n (String.length s).
Proof.
  induction n as [|n IH]; intros s; [reflexivity|].
  destruct s as [|ch s]; [reflexivity|].
  unfold slice_to; fold slice_to. simpl. now rewrite IH.
Qed.

Lemma dots_app s1 s2 : dots (s1 ++ s2)%string = (dots s1 + dots s2)%nat.
Proof.
  induction s1 as [|ch s1 IH]; simpl; [reflexivity|]. rewrite IH. lia.
Qed.

Lemma dots_path_key keys : forall prefix,
  Forall (fun key => dots key = 0%nat) keys ->
  (dots (path_key prefix keys) <= dots prefix + List.length keys)%nat.
Proof.
  induction keys as [|key keys IH]; intros prefix Hfree;
    cbn [path_key List.length]; [lia|].
  inversion Hfree as [|? ? Hkey Hkeys]; subst.
  specialize (IH (if truthy prefix then (prefix ++ "." ++ key)%string
                  else key) Hkeys).
  destruct prefix as [|ch prefix]; cbn [truthy] in *.
  - rewrite Hkey in IH. cbn [dots]. lia.
  - rewrite !dots_app, Hkey in IH. change (dots ".") with 1%nat in IH. lia.
Qed.

Lemma dot_free_keys_cons key value rest :
  dot_free_keys (VDict ((key, value) :: rest)) = true ->
  dots key = 0%nat /\ dot_free_keys value = true /\
  dot_free_keys (VDict rest) = true.
Proof.
  simpl. rewrite !andb_true_iff, Nat.eqb_eq. tauto.
Qed.

Lemma dot_free_keys_node data : forall pos keys x,
  dot_free_keys data = true ->
  node_at data pos = Some (keys, x) ->
  Forall (fun key => dots key = 0%nat) keys.
Proof.
  induction data as [items IH|l] using pyvalue_ind; intros pos keys x Hfree Hn.
  - destruct pos as [|i pos]; [injection Hn as <- _; constructor|].
    simpl in Hn. revert i Hn.
    induction IH as [|[key value] rest Hv _ IHrest]; intros i Hn;
      [destruct i; discriminate|].
    apply dot_free_keys_cons in Hfree as (Hkey & Hvalue & Hrest).
    destruct i as [|i]; simpl in Hn.
    + destruct (node_at value pos) as [[keys' x']|] eqn:E; [|discriminate].
      injection Hn as <- _. constructor; [exact Hkey|].
      exact (Hv pos keys' x' Hvalue E).
    + exact (IHrest Hrest i Hn).
  - destruct pos; [injection Hn as <- _; constructor | discriminate].
Qed.

(** ** Objects whose own code can raise *)

Lemma first_raised_dict items max_depth current_depth :
  first_raised (ADict items) max_depth current_depth =
  if current_depth >? max_depth then None
  else items_raised max_depth current_depth items.
Proof.
  simpl. destruct (current_depth >? max_depth); [reflexivity|].
  induction items as [|[key value] rest IH]; simpl; [reflexivity|].
  rewrite IH. unfold entry_raised; cbn [snd]. now destruct value as [?|[?|?]].
Qed.

Lemma first_raised_leaf l max_depth current_depth :
  first_raised (ALeaf l) max_depth current_depth = None.
Proof. simpl. now destruct (current_depth >? max_depth). Qed.

Lemma as_value_dict items :
  as_value (ADict items) =
  VDict (map (fun kv => (fst kv, as_value (snd kv))) items).
Proof.
  simpl. f_equal. induction items as [|[key value] rest IH];
    simpl; [reflexivity | now rewrite IH].
Qed.

Lemma object_returns o :
  object_raises o = None ->
  exists n p, o_getsizeof o = Gives n /\ value_preview o = Gives p.
Proof.
  unfold object_raises. destruct (o_getsizeof o) as [n|]; [|discriminate].
  destruct (value_preview o) as [p|]; [|discriminate]. now exists n, p.
Qed.

Lemma leaf_descriptor_as_object key o n p :
  o_getsizeof o = Gives n -> value_preview o = Gives p ->
  leaf_descriptor key (LOther (as_object o)) =
  {| r_key := key;
     r_type := o_type_name o;
     r_shape := None;
     r_dtype := None;
     r_size_bytes := n;
     r_device := None;
     r_value_preview := Some p |}.
Proof.
  unfold value_preview. intros Hn Hp. cbn. rewrite Hn. do 2 f_equal.
  destruct (o_callable o); cbn in Hp |- *; [now injection Hp|].
  destruct (o_str o); [now injection Hp | discriminate].
Qed.

(** In whatever store it runs, the call raises the exception of the first
    leaf whose descriptor cannot be built, and when there is none it
    returns a new list that holds [walk] of the value. *)
Lemma analyze_nested_dict_any_run data :
  forall prefix max_depth current_depth h,
    match first_raised data max_depth current_depth with
    | None =>
        exists g,
          analyze_nested_dict_any data prefix max_depth current_depth h =
          Ok (List.length h,
              h ++ walk (as_value data) prefix max_depth current_depth :: g)
    | Some name =>
        analyze_nested_dict_any data prefix max_depth current_depth h =
        Fail (ObjectRaised name)
    end.
Proof.
  induction data as [items IH|l] using any_value_ind;
    intros prefix max_depth current_depth h.
  - rewrite first_raised_dict, as_value_dict, walk_dict.
    cbn [analyze_nested_dict_any].
    assert (Hnew : forall k : ref -> MX ref,
               bindx (lift new_list) k h = k (List.length h) (h ++ [[]]))
      by reflexivity.
    rewrite !Hnew. cbv beta.
    destruct (current_depth >? max_depth).
    { exists []. reflexivity. }
    match goal with
    | |- context [bindx (?f items) _] =>
        assert (Hloop : forall acc g0,
          match items_raised max_depth current_depth items with
          | None =>
              exists g',
                f items (h ++ acc :: g0) =
                Ok (tt, h ++ (acc ++ flat_map
                      (entry_results prefix max_depth current_depth)
                      (map (fun kv => (fst kv, as_value (snd kv))) items))
                      :: g')
          | Some name => f items (h ++ acc :: g0) = Fail (ObjectRaised name)
          end)
    end.
    { induction IH as [|[key value] rest Hv _ IHrest]; intros acc g0.
      - exists g0. cbn. now rewrite app_nil_r.
      - cbn [items_raised map flat_map fst snd].
        unfold entry_raised, entry_results at 1. cbn [fst snd].
        set (full_key := if truthy prefix then _ else _).
        assert (Hstep : forall x : list descriptor,
                   update (List.length h) (fun l => l ++ x)
                     (h ++ acc :: g0) = h ++ (acc ++ x) :: g0)
          by (intros x; exact (update_middle (fun l => l ++ x) h acc g0)).
        destruct value as [sub|[t|o]]; cbn [snd] in Hv.
        + specialize (Hv full_key max_depth (current_depth + 1)
                        (h ++ acc :: g0)).
          destruct (first_raised (ADict sub) max_depth (current_depth + 1))
            as [name|].
          * unfold bindx at 1. fold full_key. unfold bindx at 1.
            now rewrite Hv.
          * destruct Hv as [g1 Hrun].
            specialize (IHrest
              (acc ++ walk (as_value (ADict sub)) full_key max_depth
                        (current_depth + 1))
              (g0 ++ walk (as_value (ADict sub)) full_key max_depth
                       (current_depth + 1) :: g1)).
            assert (Hhead :
              forall k : unit -> MX unit,
                bindx
                  (bindx (analyze_nested_dict_any (ADict sub) full_key
                            max_depth (current_depth + 1))
                     (fun nested => lift (list_extend (List.length h) nested)))
                  k (h ++ acc :: g0) =
                k tt (h ++ (acc ++ walk (as_value (ADict sub)) full_key
                                     max_depth (current_depth + 1))
                        :: (g0 ++ walk (as_value (ADict sub)) full_key
                                   max_depth (current_depth + 1) :: g1))).
            { intros k. unfold bindx. rewrite Hrun.
              unfold lift, list_extend.
              rewrite contents_middle, <- app_assoc. cbn [app].
              now rewrite update_middle. }
            rewrite as_value_dict in *.
            destruct (items_raised max_depth current_depth rest) as [name|].
            -- fold full_key. rewrite Hhead. exact IHrest.
            -- destruct IHrest as [g' Hrest]. exists g'.
               fold full_key. rewrite Hhead, Hrest. now rewrite app_assoc.
        + specialize (IHrest
            (acc ++ [leaf_descriptor full_key (LTensor t)]) g0).
          assert (Hhead :
            forall (m : MX unit) (k : unit -> MX unit),
              m (h ++ acc :: g0) =
              Ok (tt, h ++ (acc ++ [leaf_descriptor full_key (LTensor t)])
                        :: g0) ->
              bindx m k (h ++ acc :: g0) =
              k tt (h ++ (acc ++ [leaf_descriptor full_key (LTensor t)])
                      :: g0))
            by (intros m k Hm; unfold bindx; now rewrite Hm).
          destruct (items_raised max_depth current_depth rest) as [name|].
          * fold full_key. rewrite Hhead; [exact IHrest|].
            cbn. now rewrite Hstep.
          * destruct IHrest as [g' Hrest]. exists g'.
            fold full_key. rewrite Hhead; [|cbn; now rewrite Hstep].
            rewrite Hrest. now rewrite app_assoc.
        + unfold object_raises. cbv beta iota.
          destruct (o_getsizeof o) as [n|name] eqn:Hn;
            [destruct (value_preview o) as [p|name] eqn:Hp|].
          * specialize (IHrest
              (acc ++ [leaf_descriptor full_key (LOther (as_object o))]) g0).
            rewrite (leaf_descriptor_as_object full_key o n p Hn Hp) in *.
            assert (Hhead :
              forall (k : unit -> MX unit),
                bindx
                  (bindx (builtin (Gives n))
                     (fun size_bytes =>
                      bindx (builtin (Gives p))
                        (fun preview =>
                         lift (list_append (List.length h)
                                 {| r_key := full_key;
                                    r_type := o_type_name o;
                                    r_shape := None;
                                    r_dtype := None;
                                    r_size_bytes := size_bytes;
                                    r_device := None;
                                    r_value_preview := Some preview |}))))
                  k (h ++ acc :: g0) =
                k tt (h ++ (acc ++
                        [{| r_key := full_key;
                            r_type := o_type_name o;
                            r_shape := None;
                            r_dtype := None;
                            r_size_bytes := n;
                            r_device := None;
                            r_value_preview := Some p |}]) :: g0)).
            { intros k. unfold bindx. cbn. now rewrite Hstep. }
            destruct (items_raised max_depth current_depth rest) as [name|].
            -- fold full_key. rewrite Hhead. exact IHrest.
            -- destruct IHrest as [g' Hrest]. exists g'.
               fold full_key. rewrite Hhead, Hrest.
               cbn [as_value as_leaf].
               rewrite (leaf_descriptor_as_object full_key o n p Hn Hp).
               now rewrite app_assoc.
          * unfold bindx. reflexivity.
          * unfold bindx. reflexivity. }
    specialize (Hloop [] []).
    assert (Hnext : forall (m : MX unit) (k : unit -> MX ref) r,
               m (h ++ [[]]) = r ->
               bindx m k (h ++ [[]]) =
               match r with
               | Ok (a, h') => k a h'
               | Fail e => Fail e
               end)
      by (intros m k r <-; reflexivity).
    destruct (items_raised max_depth current_depth items) as [name|].
    + now rewrite (Hnext _ _ _ Hloop).
    + destruct Hloop as [g Hg]. exists g. now rewrite (Hnext _ _ _ Hg).
  - rewrite first_raised_leaf. exists []. cbn. unfold bindx. cbn.
    now destruct (current_depth >? max_depth).
Qed.

Lemma returned_any_outcome data prefix max_depth current_depth h :
  returned_any (analyze_nested_dict_any data prefix max_depth current_depth) h
  = match first_raised data max_depth current_depth with
    | None => Ok (walk (as_value data) prefix max_depth current_depth)
    | Some name => Fail (ObjectRaised name)
    end.
Proof.
  unfold returned_any.
  pose proof (analyze_nested_dict_any_run data prefix max_depth
                current_depth h) as Hrun.
  destruct (first_raised data max_depth current_depth) as [name|].
  - now rewrite Hrun.
  - destruct Hrun as [g ->]. now rewrite contents_middle.
Qed.

Lemma analyze_any_outcome data prefix max_depth current_depth :
  analyze_any data prefix max_depth current_depth =
  match first_raised data max_depth current_depth with
  | None => Ok (walk (as_value data) prefix max_depth current_depth)
  | Some name => Fail (ObjectRaised name)
  end.
Proof. apply returned_any_outcome. Qed.

Lemma node_at_as_value data : forall pos,
  node_at (as_value data) pos =
  match any_node_at data pos with
  | Some (keys, x) => Some (keys, as_value x)
  | None => None
  end.
Proof.
  induction data as [items IH|l] using any_value_ind; intros pos.
  - destruct pos as [|i pos]; [reflexivity|].
    rewrite as_value_dict. cbn [node_at any_node_at].
    rewrite nth_error_map.
    destruct (nth_error items i) as [[key value]|] eqn:Hi; [|reflexivity].
    cbn [option_map fst snd]. rewrite Forall_forall in IH.
    pose proof (IH (key, value) (nth_error_In _ _ Hi) pos) as Hvalue.
    cbn [snd] in Hvalue. rewrite Hvalue.
    now destruct (any_node_at value pos) as [[keys x]|].
  - destruct pos; reflexivity.
Qed.

Lemma leaf_at_as_value data pos keys l :
  any_leaf_at data pos keys l -> leaf_at (as_value data) pos keys (as_leaf l).
Proof.
  intros [Hne Hn]. split; [exact Hne|].
  now rewrite node_at_as_value, Hn.
Qed.

Lemma items_raised_cons max_depth current_depth kv rest :
  items_raised max_depth current_depth (kv :: rest) = None <->
  entry_raised max_depth current_depth kv = None /\
  items_raised max_depth current_depth rest = None.
Proof.
  cbn [items_raised].
  destruct (entry_raised max_depth current_depth kv); [|tauto].
  split; [discriminate | intros [H _]; discriminate].
Qed.

(** No exception is met exactly when the descriptor of every leaf within
    the depth bound can be built. *)
Lemma first_raised_none data : forall max_depth current_depth,
  first_raised data max_depth current_depth = None <->
  (forall pos keys o,
     any_leaf_at data pos keys (AOther o) ->
     current_depth + Z.of_nat (List.length pos) - 1 <= max_depth ->
     object_raises o = None).
Proof.
  induction data as [items IH|l] using any_value_ind;
    intros max_depth current_depth.
  - rewrite first_raised_dict.
    destruct (Z.gtb_spec current_depth max_depth) as [Hgt|Hle].
    { split; [|reflexivity]. intros _ pos keys o [Hne _] Hd.
      destruct pos; [congruence|]. simpl List.length in Hd. lia. }
    induction IH as [|[key value] rest Hv _ IHrest].
    { split; [|reflexivity]. intros _ pos keys o [Hne Hn].
      destruct pos as [|[|i] pos]; [congruence | discriminate..]. }
    rewrite items_raised_cons, IHrest. cbn [snd] in Hv. split.
    + intros [Hentry Hrest] pos keys o [Hne Hn] Hd.
      destruct pos as [|[|i] q]; [congruence| |].
      * unfold entry_raised in Hentry; cbn [snd] in Hentry.
        cbn [any_node_at nth_error] in Hn.
        destruct q as [|j q].
        -- cbn in Hn. injection Hn as _ ->. exact Hentry.
        -- destruct value as [sub|l']; [|discriminate].
           destruct (any_node_at (ADict sub) (j :: q)) as [[keys' x]|] eqn:E;
             [|discriminate].
           injection Hn as _ ->.
           apply (proj1 (Hv max_depth (current_depth + 1)) Hentry
                    (j :: q) keys' o); [split; [discriminate|exact E]|].
           simpl List.length in *. lia.
      * apply (Hrest (i :: q) keys o); [split; [discriminate|exact Hn]|].
        exact Hd.
    + intros Hall. split.
      * unfold entry_raised; cbn [snd]. destruct value as [sub|[t|o]].
        -- apply Hv. intros pos keys o [Hne Hn] Hd.
           apply (Hall (0%nat :: pos) (key :: keys) o).
           ++ split; [discriminate|]. cbn [any_node_at nth_error].
              now rewrite Hn.
           ++ simpl List.length. lia.
        -- reflexivity.
        -- apply (Hall [0%nat] [key] o);
             [split; [discriminate | reflexivity] | simpl; lia].
      * intros pos keys o [Hne Hn] Hd.
        destruct pos as [|i q]; [congruence|].
        apply (Hall (S i :: q) keys o); [split; [discriminate|exact Hn]|].
        exact Hd.
  - rewrite first_raised_leaf. split; [|reflexivity].
    intros _ pos keys o [Hne Hn]. destruct pos; [congruence | discriminate].
Qed.

Lemma first_raised_shift k data : forall max_depth current_depth,
  first_raised data (max_depth + k) (current_depth + k) =
  first_raised data max_depth current_depth.
Proof.
  induction data as [items IH|l] using any_value_ind;
    intros max_depth current_depth; [|now rewrite !first_raised_leaf].
  rewrite !first_raised_dict.
  replace (current_depth + k >? max_depth + k)
    with (current_depth >? max_depth)
    by (destruct (Z.gtb_spec current_depth max_depth),
                 (Z.gtb_spec (current_depth + k) (max_depth + k));
        (reflexivity || lia)).
  destruct (current_depth >? max_depth); [reflexivity|].
  induction IH as [|[key value] rest Hv _ IHrest]; [reflexivity|].
  cbn [items_raised]. rewrite IHrest.
  unfold entry_raised; cbn [snd]. cbn [snd] in Hv.
  destruct value as [sub|[t|o]]; try reflexivity.
  replace (current_depth + k + 1) with (current_depth + 1 + k) by lia.
  now rewrite Hv.
Qed.

Lemma items_raised_app max_depth current_depth xs ys :
  items_raised max_depth current_depth (xs ++ ys) =
  match items_raised max_depth current_depth xs with
  | Some name => Some name
  | None => items_raised max_depth current_depth ys
  end.
Proof.
  induction xs as [|kv xs IH]; cbn [app items_raised]; [reflexivity|].
  now destruct (entry_raised max_depth current_depth kv).
Qed.

Lemma object_raises_some o :
  (exists name, o_getsizeof o = Throws name) \/
  (exists name, value_preview o = Throws name) ->
  object_raises o <> None.
Proof.
  unfold object_raises. intros [[name H]|[name H]]; rewrite H.
  - discriminate.
  - destruct (o_getsizeof o); discriminate.
Qed.

(** The result, cut at the descriptor of one leaf within the depth bound:
    the descriptors before it and after it are those of other leaves. *)
Lemma walk_splits_at data prefix max_depth current_depth pos keys l :
  leaf_at data pos keys l ->
  current_depth + Z.of_nat (List.length pos) - 1 <= max_depth ->
  exists ps1 ps2 ds1 ds2,
    leaf_positions data max_depth current_depth = ps1 ++ pos :: ps2 /\
    walk data prefix max_depth current_depth =
      ds1 ++ leaf_descriptor (path_key prefix keys) l :: ds2 /\
    Forall2 (describes data prefix) ps1 ds1 /\
    Forall2 (describes data prefix) ps2 ds2 /\
    ~ In pos ps1 /\ ~ In pos ps2.
Proof.
  intros Hleaf Hdepth.
  assert (Hin : In pos (leaf_positions data max_depth current_depth))
    by (apply leaf_positions_spec; split;
        [now exists keys, l | exact Hdepth]).
  assert (Hnodup : NoDup (leaf_positions data max_depth current_depth))
    by (apply (StronglySorted_NoDup dfs_lt);
        [apply dfs_lt_irrefl | apply leaf_positions_sorted]).
  pose proof (walk_describes data prefix max_depth current_depth) as Hall.
  apply in_split in Hin as (ps1 & ps2 & Hps). rewrite Hps in Hall, Hnodup.
  apply Forall2_app_inv_l in Hall as (ds1 & ds' & H1 & H2 & Hds).
  inversion H2 as [|? d ? ds2 Hd H2' ]; subst ds'.
  exists ps1, ps2, ds1, ds2.
  apply NoDup_remove_2 in Hnodup.
  split; [exact Hps|]. split.
  - rewrite Hds. do 2 f_equal.
    destruct Hd as (keys' & l' & [_ Hn'] & ->).
    destruct Hleaf as [_ Hn]. rewrite Hn in Hn'. now injection Hn' as <- <-.
  - split; [exact H1|]. split; [exact H2'|].
    split; intros Hp; apply Hnodup, in_or_app; [now left | now right].
Qed.

Lemma Forall2_impl_In {A B : Type} (R R' : A -> B -> Prop) xs : forall ys,
  (forall x y, In x xs -> R x y -> R' x y) ->
  Forall2 R xs ys -> Forall2 R' xs ys.
Proof.
  induction xs as [|x xs IH]; intros ys Himp Hall; inversion Hall; subst;
    constructor.
  - apply Himp; [now left | assumption].
  - apply IH; [|assumption]. intros x' y' Hin. apply Himp. now right.
Qed.

Lemma leaf_at_of_as_value data pos keys l :
  leaf_at (as_value data) pos keys l ->
  exists l', any_leaf_at data pos keys l' /\ l = as_leaf l'.
Proof.
  intros [Hne Hn]. rewrite node_at_as_value in Hn.
  destruct (any_node_at data pos) as [[keys' x]|] eqn:E; [|discriminate].
  destruct x as [items|l']; [discriminate|].
  cbn [as_value] in Hn. injection Hn as <- <-.
  exists l'. now split.
Qed.

(** Where no leaf within the depth bound raises, a descriptor of the
    result is the one the program builds. *)
Lemma describes_as_value data prefix max_depth current_depth pos d :
  first_raised data max_depth current_depth = None ->
  In pos (leaf_positions (as_value data) max_depth current_depth) ->
  describes (as_value data) prefix pos d ->
  any_describes data prefix pos d.
Proof.
  intros Hnone Hin (keys & l & Hl & ->).
  apply leaf_positions_spec in Hin as [_ Hd].
  apply leaf_at_of_as_value in Hl as (l' & Hl' & ->).
  exists keys, l'. split; [exact Hl'|].
  destruct l' as [t|o]; [reflexivity|].
  destruct (object_returns o
              (proj1 (first_raised_none data max_depth current_depth) Hnone
                 pos keys o Hl' Hd)) as (n & p & Hn & Hp).
  exists n, p. split; [exact Hn|]. split; [exact Hp|].
  exact (leaf_descriptor_as_object _ o n p Hn Hp).
Qed.


(** * Properties of [analyze_nested_dict] *)

(** C1.  A tensor leaf stored in a dictionary the call enters has its
    descriptor in the result, and the byte size of that descriptor is the
    product [numel * element_size] with nothing added; this is the value
    [get_tensor_info] computes.  Conversely, every descriptor of the result
    that carries a shape is that of a tensor leaf of the input, with this
    product as its byte size. *)
Theorem tensor_size_bytes_exact data prefix max_depth current_depth
    pos keys t :
  leaf_at data pos keys (LTensor t) ->
  current_depth + Z.of_nat (List.length pos) - 1 <= max_depth ->
  i_size_bytes (get_tensor_info (LTensor t)) =
    Some (numel t * element_size t) /\
  exists ds,
    analyze data prefix max_depth current_depth = Returns ds /\
    In {| r_key := path_key prefix keys;
          r_type := "tensor";
          r_shape := Some (shape t);
          r_dtype := Some (dtype t);
          r_size_bytes := numel t * element_size t;
          r_device := Some (device t);
          r_value_preview := None |} ds /\
    forall d, In d ds -> r_shape d <> None ->
      exists pos' keys' t',
        leaf_at data pos' keys' (LTensor t') /\
        r_key d = path_key prefix keys' /\
        r_size_bytes d = numel t' * element_size t'.
Proof.
  intros Hleaf Hdepth. split; [reflexivity|].
  exists (walk data prefix max_depth current_depth).
  split; [apply analyze_walk|].
  split.
  - exact (walk_holds_leaf _ prefix _ _ _ _ _ Hleaf Hdepth).
  - intros d Hd Hshape.
    apply walk_only_leaves in Hd as (pos' & keys' & l & Hl & _ & ->).
    destruct l as [t'|o]; [|now destruct Hshape].
    now exists pos', keys', t'.
Qed.

Lemma tensor_size_bytes_exact_witness :
  leaf_at Samples.two_entries [0%nat; 0%nat] ["a"; "b"]
    (LTensor Samples.float32_2x2) /\
  0 + Z.of_nat (List.length [0%nat; 0%nat]) - 1 <= 3 /\
  exists ds,
    analyze Samples.two_entries "" 3 0 = Returns ds /\
    In {| r_key := "a.b";
          r_type := "tensor";
          r_shape := Some [2; 2];
          r_dtype := Some "torch.float32";
          r_size_bytes := 4 * 4;
          r_device := Some "cpu";
          r_value_preview := None |} ds.
Proof.
  assert (Hleaf : leaf_at Samples.two_entries [0%nat; 0%nat] ["a"; "b"]
                    (LTensor Samples.float32_2x2))
    by (split; [discriminate | reflexivity]).
  assert (Hdepth : 0 + Z.of_nat (List.length [0%nat; 0%nat]) - 1 <= 3)
    by (simpl; lia).
  split; [exact Hleaf|]. split; [exact Hdepth|].
  destruct (tensor_size_bytes_exact Samples.two_entries "" 3 0
              [0%nat; 0%nat] ["a"; "b"] Samples.float32_2x2 Hleaf Hdepth)
    as (_ & ds & Hds & Hin & _).
  exists ds. split; [exact Hds | exact Hin].
Defined.

(** C2.  A call whose [current_depth] is greater than [max_depth] only
    creates its empty result list and returns it, whatever [data] is: no
    entry is processed and no other list is created.  Hence, for a
    dictionary found in the input at a depth greater than [max_depth],
    nothing below it reaches the result: the result is the same with any
    other dictionary, the empty one included, in its place. *)
Theorem over_depth_returns_empty data prefix max_depth current_depth :
  (current_depth > max_depth ->
   (forall h,
      analyze_nested_dict data prefix max_depth current_depth h =
      Returns (List.length h, h ++ [[]])) /\
   analyze data prefix max_depth current_depth = Returns []) /\
  (forall pos keys sub sub',
     node_at data pos = Some (keys, VDict sub) ->
     current_depth + Z.of_nat (List.length pos) > max_depth ->
     analyze (replace_at data pos (VDict sub')) prefix max_depth
       current_depth =
     analyze data prefix max_depth current_depth).
Proof.
  split.
  - intros Hgt.
    assert (Hrun : forall h,
               analyze_nested_dict data prefix max_depth current_depth h =
               Returns (List.length h, h ++ [[]])).
    { intros h. destruct data as [items|l]; simpl; unfold bind; simpl;
        destruct (Z.gtb_spec current_depth max_depth); (reflexivity || lia). }
    split; [exact Hrun|].
    unfold analyze, returned. now rewrite Hrun.
  - intros pos keys sub sub' Hn Hd. rewrite !analyze_walk. f_equal.
    now apply walk_replace_at with (keys := keys) (sub := sub).
Qed.

Lemma over_depth_returns_empty_witness :
  analyze Samples.nested5 "" 3 4 = Returns [] /\
  analyze
    (replace_at Samples.nested5 [1%nat; 1%nat; 1%nat; 1%nat] (VDict []))
    "" 3 0 =
  analyze Samples.nested5 "" 3 0.
Proof.
  split.
  - apply (over_depth_returns_empty Samples.nested5 "" 3 4). lia.
  - eapply (proj2 (over_depth_returns_empty Samples.nested5 "" 3 0)).
    + reflexivity.
    + simpl. lia.
Defined.

(** C3.  With [max_depth = 3] and [current_depth = 0], the result holds the
    descriptors of exactly the leaves whose dictionary is at most three
    levels below the input; on a chain of dictionaries with a leaf at each
    of the depths 0 to 5, these are the leaves at depths 0 to 3, and the
    leaves at depths 4 and 5 are absent. *)
Theorem max_depth_3_keeps_depth_le_3 :
  (exists ds,
     analyze_default Samples.nested5 = Returns ds /\
     map r_key ds = ["l0"; "n1.l1"; "n1.n2.l2"; "n1.n2.n3.l3"]) /\
  forall data,
  exists ps ds,
    analyze data "" 3 0 = Returns ds /\
    Forall2 (describes data "") ps ds /\
    forall pos,
      In pos ps <->
      (exists keys l, leaf_at data pos keys l) /\
      Z.of_nat (List.length pos) - 1 <= 3.
Proof.
  split.
  - eexists. split; reflexivity.
  - intros data.
    exists (leaf_positions data 3 0), (walk data "" 3 0).
    split; [apply analyze_walk|]. split; [apply walk_describes|].
    intros pos. rewrite leaf_positions_spec.
    now replace (0 + Z.of_nat (List.length pos) - 1)
      with (Z.of_nat (List.length pos) - 1) by lia.
Qed.

(** C4.  A leaf that is neither a dictionary nor a tensor, at whatever
    level within the depth bound, is never left out of a result: when the
    call returns, the result is the descriptors of other leaves, then the
    one descriptor of this leaf, then the descriptors of other leaves
    again.  The type tag of that descriptor is the type name of the value;
    its preview is ["callable"] when the value is callable and otherwise
    the string of the value cut after 100 characters, never both.  The
    call does return when [sys.getsizeof] and the preview return for every
    such leaf within the depth bound. *)
Theorem other_leaf_one_descriptor data prefix max_depth current_depth
    pos keys o :
  any_leaf_at data pos keys (AOther o) ->
  current_depth + Z.of_nat (List.length pos) - 1 <= max_depth ->
  (forall ds,
     analyze_any data prefix max_depth current_depth = Ok ds ->
     exists n p ps1 ps2 ds1 ds2,
       ds = ds1 ++ {| r_key := path_key prefix keys;
                      r_type := o_type_name o;
                      r_shape := None;
                      r_dtype := None;
                      r_size_bytes := n;
                      r_device := None;
                      r_value_preview := Some p |} :: ds2 /\
       Forall2 (any_describes data prefix) ps1 ds1 /\
       Forall2 (any_describes data prefix) ps2 ds2 /\
       ~ In pos ps1 /\ ~ In pos ps2 /\
       o_getsizeof o = Gives n /\
       ((o_callable o = true /\ p = "callable") \/
        (o_callable o = false /\
         exists s rest,
           o_str o = Gives s /\ p = slice_to 100 s /\
           String.length p = Nat.min 100 (String.length s) /\
           s = (p ++ rest)%string))) /\
  ((forall pos' keys' o',
      any_leaf_at data pos' keys' (AOther o') ->
      current_depth + Z.of_nat (List.length pos') - 1 <= max_depth ->
      exists n p, o_getsizeof o' = Gives n /\ value_preview o' = Gives p) ->
   exists ds, analyze_any data prefix max_depth current_depth = Ok ds).
Proof.
  intros Hleaf Hdepth. split.
  - intros ds. rewrite analyze_any_outcome.
    destruct (first_raised data max_depth current_depth) as [name|] eqn:E;
      [discriminate|].
    intros [= <-].
    destruct (object_returns o
                (proj1 (first_raised_none data max_depth current_depth) E
                   pos keys o Hleaf Hdepth)) as (n & p & Hn & Hp).
    destruct (walk_splits_at (as_value data) prefix max_depth current_depth
                pos keys (LOther (as_object o))
                (leaf_at_as_value _ _ _ _ Hleaf) Hdepth)
      as (ps1 & ps2 & ds1 & ds2 & Hps & Hds & H1 & H2 & Hn1 & Hn2).
    exists n, p, ps1, ps2, ds1, ds2.
    rewrite (leaf_descriptor_as_object _ o n p Hn Hp) in Hds.
    split; [exact Hds|].
    split.
    { apply (Forall2_impl_In (describes (as_value data) prefix));
        [|exact H1].
      intros pos' d Hin. apply (describes_as_value _ _ _ _ _ _ E).
      rewrite Hps. apply in_or_app. now left. }
    split.
    { apply (Forall2_impl_In (describes (as_value data) prefix));
        [|exact H2].
      intros pos' d Hin. apply (describes_as_value _ _ _ _ _ _ E).
      rewrite Hps. apply in_or_app. right. now right. }
    split; [exact Hn1|]. split; [exact Hn2|]. split; [exact Hn|].
    unfold value_preview in Hp.
    destruct (o_callable o); cbn [negb] in Hp.
    + left. split; [reflexivity|]. now injection Hp.
    + right. split; [reflexivity|].
      destruct (o_str o) as [s|]; [|discriminate]. injection Hp as <-.
      destruct (slice_to_prefix 100 s) as [rest Hrest].
      exists s, rest. repeat split;
        [apply slice_to_length | exact Hrest].
  - intros Hall. rewrite analyze_any_outcome.
    assert (Hnone : first_raised data max_depth current_depth = None).
    { apply first_raised_none. intros pos' keys' o' Hl Hd.
      destruct (Hall pos' keys' o' Hl Hd) as (n & p & Hn & Hp).
      unfold object_raises. now rewrite Hn, Hp. }
    rewrite Hnone. eauto.
Qed.

Lemma other_leaf_one_descriptor_witness :
  any_leaf_at Samples.nested_note [0%nat; 0%nat] ["outer"; "note"]
    (AOther (Samples.any_int_obj "7")) /\
  0 + Z.of_nat (List.length [0%nat; 0%nat]) - 1 <= 3 /\
  analyze_any Samples.nested_note "" 3 0 =
    Ok [leaf_descriptor "outer.note" (LOther (Samples.int_obj "7"));
        leaf_descriptor "c" (LOther (Samples.int_obj "5"))] /\
  exists n p ps1 ps2 ds1 ds2,
    [leaf_descriptor "outer.note" (LOther (Samples.int_obj "7"));
     leaf_descriptor "c" (LOther (Samples.int_obj "5"))] =
    ds1 ++ {| r_key := "outer.note";
              r_type := "int";
              r_shape := None;
              r_dtype := None;
              r_size_bytes := n;
              r_device := None;
              r_value_preview := Some p |} :: ds2 /\
    Forall2 (any_describes Samples.nested_note "") ps1 ds1 /\
    Forall2 (any_describes Samples.nested_note "") ps2 ds2 /\
    ~ In [0%nat; 0%nat] ps1 /\ ~ In [0%nat; 0%nat] ps2 /\
    Gives 28 = Gives n /\
    ((false = true /\ p = "callable") \/
     (false = false /\
      exists s rest,
        Gives "7" = Gives s /\ p = slice_to 100 s /\
        String.length p = Nat.min 100 (String.length s) /\
        s = (p ++ rest)%string)).
Proof.
  assert (Hleaf : any_leaf_at Samples.nested_note [0%nat; 0%nat]
                    ["outer"; "note"] (AOther (Samples.any_int_obj "7")))
    by (split; [discriminate | reflexivity]).
  assert (Hdepth : 0 + Z.of_nat (List.length [0%nat; 0%nat]) - 1 <= 3)
    by (simpl; lia).
  assert (Hrun : analyze_any Samples.nested_note "" 3 0 =
                 Ok [leaf_descriptor "outer.note"
                       (LOther (Samples.int_obj "7"));
                     leaf_descriptor "c" (LOther (Samples.int_obj "5"))])
    by reflexivity.
  split; [exact Hleaf|]. split; [exact Hdepth|]. split; [exact Hrun|].
  exact (proj1 (other_leaf_one_descriptor Samples.nested_note "" 3 0
                  [0%nat; 0%nat] ["outer"; "note"]
                  (Samples.any_int_obj "7") Hleaf Hdepth) _ Hrun).
Defined.

(** C5.  The result holds exactly one descriptor for each leaf that lies
    in a dictionary at depth at most [max_depth], and nothing else: its
    descriptors are those of a list of pairwise distinct positions, each
    leading to a leaf and never to a dictionary, which are all the
    positions of such leaves, listed in depth-first order along the item
    order of each dictionary. *)
Theorem one_descriptor_per_reachable_leaf data prefix
    max_depth current_depth :
  exists ps ds,
    analyze data prefix max_depth current_depth = Returns ds /\
    Forall2 (describes data prefix) ps ds /\
    (forall pos,
       In pos ps <->
       (exists keys l, leaf_at data pos keys l) /\
       current_depth + Z.of_nat (List.length pos) - 1 <= max_depth) /\
    NoDup ps /\
    StronglySorted dfs_lt ps.
Proof.
  exists (leaf_positions data max_depth current_depth),
         (walk data prefix max_depth current_depth).
  split; [apply analyze_walk|]. split; [apply walk_describes|].
  split; [intros pos; apply leaf_positions_spec|].
  pose proof (leaf_positions_sorted data max_depth current_depth) as Hs.
  split; [|exact Hs].
  apply (StronglySorted_NoDup dfs_lt); [apply dfs_lt_irrefl | exact Hs].
Qed.

(** C6.  With [max_depth = d >= 0] and [current_depth = 0], the key of
    every descriptor of the result is the prefix joined with the keys on
    the way to a leaf of the input, and these are at most [d + 1] keys.
    When no key of the input holds a dot, the key of the descriptor has at
    most [d + 1] dots more than the prefix. *)
Theorem path_has_at_most_depth_plus_one_keys data prefix d :
  0 <= d ->
  exists ds,
    analyze data prefix d 0 = Returns ds /\
    Forall
      (fun r =>
         exists pos keys l,
           leaf_at data pos keys l /\
           r_key r = path_key prefix keys /\
           Z.of_nat (List.length keys) <= d + 1 /\
           (dot_free_keys data = true ->
            Z.of_nat (dots (r_key r)) <= Z.of_nat (dots prefix) + d + 1))
      ds.
Proof.
  intros _. exists (walk data prefix d 0). split; [apply analyze_walk|].
  apply Forall_forall. intros r Hr.
  apply walk_only_leaves in Hr as (pos & keys & l & [Hne Hn] & Hdepth & ->).
  pose proof (node_at_length _ _ _ _ Hn) as Hlen.
  exists pos, keys, l. split; [now split|].
  split; [now destruct l|]. split; [lia|].
  intros Hfree.
  pose proof (dots_path_key keys prefix (dot_free_keys_node _ _ _ _ Hfree Hn)).
  destruct l; cbn [leaf_descriptor r_key]; lia.
Qed.

Lemma path_has_at_most_depth_plus_one_keys_witness :
  0 <= 3 /\
  dot_free_keys Samples.nested5 = true /\
  exists ds,
    analyze Samples.nested5 "ckpt" 3 0 = Returns ds /\
    Forall
      (fun r =>
         (exists pos keys l,
            leaf_at Samples.nested5 pos keys l /\
            r_key r = path_key "ckpt" keys /\
            Z.of_nat (List.length keys) <= 3 + 1) /\
         Z.of_nat (dots (r_key r)) <= Z.of_nat (dots "ckpt") + 3 + 1)
      ds.
Proof.
  split; [lia|]. split; [reflexivity|].
  destruct (path_has_at_most_depth_plus_one_keys Samples.nested5 "ckpt" 3)
    as (ds & Hds & Hall); [lia|].
  exists ds. split; [exact Hds|].
  eapply Forall_impl; [|exact Hall].
  intros r (pos & keys & l & Hl & Hkey & Hlen & Hdots).
  split; [now exists pos, keys, l | now apply Hdots].
Defined.

(** C7.  An entry [(key, value)] of a dictionary the call enters is given
    the key [prefix + "." + key] when [prefix] is not empty and [key]
    alone when it is: this is the key of the descriptor when [value] is a
    leaf, and the prefix of the call on [value] when it is a dictionary. *)
Theorem full_key_rule pre key value post prefix max_depth current_depth :
  current_depth <= max_depth ->
  (prefix <> "" ->
   entry_shows_as pre key value post prefix max_depth current_depth
     (prefix ++ "." ++ key)%string) /\
  (prefix = "" ->
   entry_shows_as pre key value post prefix max_depth current_depth key).
Proof.
  intros Hle.
  assert (Hshow :
    entry_shows_as pre key value post prefix max_depth current_depth
      (if truthy prefix then (prefix ++ "." ++ key)%string else key)).
  { exists (walk (VDict pre) prefix max_depth current_depth),
           (walk (VDict post) prefix max_depth current_depth).
    rewrite !analyze_walk, walk_dict_app, walk_dict_cons by exact Hle.
    unfold entry_results; cbn [fst snd].
    set (full_key := if truthy prefix then _ else _).
    do 2 (split; [reflexivity|]).
    destruct value as [sub|l].
    - exists (walk (VDict sub) full_key max_depth (current_depth + 1)).
      split; reflexivity.
    - exists (leaf_descriptor full_key l). split; [now destruct l|reflexivity]. }
  split; intros Hprefix.
  - destruct prefix; [congruence | exact Hshow].
  - subst prefix. exact Hshow.
Qed.

Lemma full_key_rule_witness :
  entry_shows_as [] "f" (VLeaf (LOther Samples.function_obj))
    [("empty", VDict [])] "opt" 3 0 "opt.f" /\
  entry_shows_as [] "f" (VLeaf (LOther Samples.function_obj))
    [("empty", VDict [])] "" 3 0 "f".
Proof.
  assert (Hle : 0 <= 3) by lia.
  split.
  - apply (proj1 (full_key_rule [] "f" (VLeaf (LOther Samples.function_obj))
                    [("empty", VDict [])] "opt" 3 0 Hle)).
    discriminate.
  - apply (proj2 (full_key_rule [] "f" (VLeaf (LOther Samples.function_obj))
                    [("empty", VDict [])] "" 3 0 Hle)).
    reflexivity.
Defined.

(** C8.  Run in any store, the call raises nothing, returns a list object
    that did not exist before and leaves every list object that existed
    unchanged; the contents of the returned list do not depend on the
    store.  Two calls in a row on the same arguments return two distinct
    lists with the same contents, and the second call leaves the list of
    the first as it was.  (The values of the checkpoint are not in the
    store: the function has no operation that writes to them, and none
    that reads or writes a file.) *)
Theorem analyze_nested_dict_is_pure data prefix max_depth current_depth h :
  exists ds r1 new1 r2 new2,
    analyze data prefix max_depth current_depth = Returns ds /\
    analyze_nested_dict data prefix max_depth current_depth h =
      Returns (r1, h ++ new1) /\
    analyze_nested_dict data prefix max_depth current_depth (h ++ new1) =
      Returns (r2, (h ++ new1) ++ new2) /\
    r1 = List.length h /\
    r2 = List.length (h ++ new1) /\
    r1 <> r2 /\
    contents (h ++ new1) r1 = ds /\
    contents ((h ++ new1) ++ new2) r2 = ds /\
    contents ((h ++ new1) ++ new2) r1 = ds.
Proof.
  set (ds := walk data prefix max_depth current_depth).
  destruct (analyze_nested_dict_run data prefix max_depth current_depth h)
    as [g1 Hrun1].
  destruct (analyze_nested_dict_run data prefix max_depth current_depth
              (h ++ ds :: g1)) as [g2 Hrun2].
  exists ds, (List.length h), (ds :: g1), (List.length (h ++ ds :: g1)),
         (ds :: g2).
  split; [apply analyze_walk|].
  split; [exact Hrun1|]. split; [exact Hrun2|].
  do 2 (split; [reflexivity|]).
  split; [rewrite length_app; simpl; lia|].
  split; [apply contents_middle|]. split; [apply contents_middle|].
  rewrite <- app_assoc. cbn [app]. apply contents_middle.
Qed.

(** C9.  The call has no failure of its own, and a value that is neither
    a dictionary nor a tensor always goes to the last branch.  When
    [sys.getsizeof] and the preview, that is [str] for a value that is not
    callable, return for every such leaf within the depth bound, the call
    returns in any store and the result holds the descriptor of each of
    these leaves.  When one of the two raises for such a leaf, the call
    raises an exception of a leaf instead of returning.  The empty
    dictionary yields the empty list, and an entry whose value is the
    empty dictionary changes nothing, error or not. *)
Theorem analyze_nested_dict_raises_only_what_a_leaf_raises data prefix
    max_depth current_depth :
  ((forall pos keys o,
      any_leaf_at data pos keys (AOther o) ->
      current_depth + Z.of_nat (List.length pos) - 1 <= max_depth ->
      exists n p, o_getsizeof o = Gives n /\ value_preview o = Gives p) ->
   (forall h, exists r h',
      analyze_nested_dict_any data prefix max_depth current_depth h =
      Ok (r, h')) /\
   exists ds,
     analyze_any data prefix max_depth current_depth = Ok ds /\
     forall pos keys o n p,
       any_leaf_at data pos keys (AOther o) ->
       current_depth + Z.of_nat (List.length pos) - 1 <= max_depth ->
       o_getsizeof o = Gives n -> value_preview o = Gives p ->
       In {| r_key := path_key prefix keys;
             r_type := o_type_name o;
             r_shape := None;
             r_dtype := None;
             r_size_bytes := n;
             r_device := None;
             r_value_preview := Some p |} ds) /\
  (forall pos keys o,
     any_leaf_at data pos keys (AOther o) ->
     current_depth + Z.of_nat (List.length pos) - 1 <= max_depth ->
     (exists name, o_getsizeof o = Throws name) \/
     (exists name, value_preview o = Throws name) ->
     exists name, forall h,
       analyze_nested_dict_any data prefix max_depth current_depth h =
       Fail (ObjectRaised name)) /\
  analyze_any (ADict []) prefix max_depth current_depth = Ok [] /\
  (forall pre key post,
     analyze_any (ADict (pre ++ (key, ADict []) :: post)) prefix max_depth
       current_depth =
     analyze_any (ADict (pre ++ post)) prefix max_depth current_depth).
Proof.
  split; [|split; [|split]].
  - intros Hall.
    assert (Hnone : first_raised data max_depth current_depth = None).
    { apply first_raised_none. intros pos keys o Hl Hd.
      destruct (Hall pos keys o Hl Hd) as (n & p & Hn & Hp).
      unfold object_raises. now rewrite Hn, Hp. }
    split.
    + intros h.
      pose proof (analyze_nested_dict_any_run data prefix max_depth
                    current_depth h) as Hrun.
      rewrite Hnone in Hrun. destruct Hrun as [g Hrun]. eauto.
    + exists (walk (as_value data) prefix max_depth current_depth).
      rewrite analyze_any_outcome, Hnone. split; [reflexivity|].
      intros pos keys o n p Hl Hd Hn Hp.
      rewrite <- (leaf_descriptor_as_object _ o n p Hn Hp).
      apply (walk_holds_leaf (as_value data) prefix max_depth current_depth
               pos keys (LOther (as_object o)));
        [exact (leaf_at_as_value _ _ _ _ Hl) | exact Hd].
  - intros pos keys o Hl Hd Hraises.
    destruct (first_raised data max_depth current_depth) as [name|] eqn:E.
    + exists name. intros h.
      pose proof (analyze_nested_dict_any_run data prefix max_depth
                    current_depth h) as Hrun.
      now rewrite E in Hrun.
    + destruct (object_raises_some o Hraises).
      exact (proj1 (first_raised_none data max_depth current_depth) E
               pos keys o Hl Hd).
  - rewrite analyze_any_outcome, first_raised_dict, as_value_dict, walk_dict.
    now destruct (current_depth >? max_depth).
  - intros pre key post. rewrite !analyze_any_outcome.
    assert (Hentry : entry_raised max_depth current_depth (key, ADict []) =
                     None).
    { unfold entry_raised; cbn [snd]. rewrite first_raised_dict.
      now destruct (current_depth + 1 >? max_depth). }
    assert (Hnothing : entry_results prefix max_depth current_depth
                         (key, as_value (ADict [])) = []).
    { unfold entry_results; cbn [fst snd as_value]. rewrite walk_dict.
      now destruct (current_depth + 1 >? max_depth). }
    rewrite !first_raised_dict, !as_value_dict, !map_app, !walk_dict.
    destruct (current_depth >? max_depth); [reflexivity|].
    rewrite !items_raised_app. cbn [items_raised]. rewrite Hentry.
    rewrite !flat_map_app. cbn [map flat_map fst snd].
    now rewrite Hnothing.
Qed.

Lemma analyze_nested_dict_raises_only_what_a_leaf_raises_witness :
  (exists ds,
     analyze_any Samples.any_state "ckpt" 3 0 = Ok ds /\
     In {| r_key := "ckpt.step";
           r_type := "int";
           r_shape := None;
           r_dtype := None;
           r_size_bytes := 28;
           r_device := None;
           r_value_preview := Some "5" |} ds) /\
  exists name, forall h,
    analyze_nested_dict_any Samples.with_broken_str "" 3 0 h =
    Fail (ObjectRaised name).
Proof.
  split.
  - destruct (proj1 (analyze_nested_dict_raises_only_what_a_leaf_raises
                       Samples.any_state "ckpt" 3 0))
      as (_ & ds & Hds & Hin).
    + intros pos keys o Hl Hd. apply object_returns.
      exact (proj1 (first_raised_none Samples.any_state 3 0) eq_refl
               pos keys o Hl Hd).
    + exists ds. split; [exact Hds|].
      apply (Hin [1%nat] ["step"] (Samples.any_int_obj "5") 28 "5");
        [split; [discriminate | reflexivity] | simpl; lia
        | reflexivity | reflexivity].
  - apply (proj1 (proj2 (analyze_nested_dict_raises_only_what_a_leaf_raises
                           Samples.with_broken_str "" 3 0))
             [1%nat] ["bad"] Samples.broken_str_obj).
    + split; [discriminate | reflexivity].
    + simpl. lia.
    + right. now exists "ValueError".
Defined.

(** A leaf that is neither a dictionary nor a tensor, within the depth
    bound, on which the call raises and returns no descriptor. *)
Lemma a_leaf_whose_str_raises_fails_the_call :
  any_leaf_at Samples.with_broken_str [1%nat] ["bad"]
    (AOther Samples.broken_str_obj) /\
  0 + Z.of_nat (List.length [1%nat]) - 1 <= 3 /\
  analyze_any Samples.with_broken_str "" 3 0 =
    Fail (ObjectRaised "ValueError") /\
  ~ (exists ds, analyze_any Samples.with_broken_str "" 3 0 = Ok ds).
Proof.
  split; [split; [discriminate | reflexivity]|].
  split; [simpl; lia|].
  split; [reflexivity|].
  intros [ds Hds]. discriminate.
Qed.

(** C10.  When the value passed as [data] is not a dictionary, the result
    is the empty list; the same value stored under a key of a dictionary
    the call enters yields one descriptor. *)
Theorem non_dict_root_returns_empty data prefix max_depth current_depth :
  isinstance_dict data = false ->
  analyze data prefix max_depth current_depth = Returns [] /\
  forall key,
    current_depth <= max_depth ->
    exists d,
      analyze (VDict [(key, data)]) prefix max_depth current_depth =
      Returns [d].
Proof.
  intros Hleaf. destruct data as [items|l]; [discriminate|].
  rewrite !analyze_walk, walk_leaf. split; [reflexivity|].
  intros key Hle. rewrite analyze_walk, walk_dict_cons by exact Hle.
  unfold entry_results; cbn [fst snd]. rewrite walk_dict.
  destruct (current_depth >? max_depth); eexists; reflexivity.
Qed.

Lemma non_dict_root_returns_empty_witness :
  isinstance_dict (VLeaf (LTensor Samples.float32_2x2)) = false /\
  analyze (VLeaf (LTensor Samples.float32_2x2)) "" 3 0 = Returns [] /\
  exists d,
    analyze (VDict [("w", VLeaf (LTensor Samples.float32_2x2))]) "" 3 0 =
    Returns [d].
Proof.
  split; [reflexivity|].
  destruct (non_dict_root_returns_empty
              (VLeaf (LTensor Samples.float32_2x2)) "" 3 0 eq_refl)
    as [Hroot Hnested].
  split; [exact Hroot|]. apply (Hnested "w"). lia.
Defined.

(** The worked example: [{"a": {"b": <2x2 float32>}, "c": 5}] with the
    default arguments. *)
Example two_entries_result :
  analyze_default Samples.two_entries =
  Returns
    [{| r_key := "a.b";
        r_type := "tensor";
        r_shape := Some [2; 2];
        r_dtype := Some "torch.float32";
        r_size_bytes := 16;
        r_device := Some "cpu";
        r_value_preview := None |};
     {| r_key := "c";
        r_type := "int";
        r_shape := None;
        r_dtype := None;
        r_size_bytes := 28;
        r_device := None;
        r_value_preview := Some "5" |}].
Proof. reflexivity. Qed.

(** A text of 120 characters is shown by its first 100. *)
Example long_text_preview :
  analyze_default (VDict [("note", VLeaf (LOther Samples.long_text_obj))]) =
  Returns
    [{| r_key := "note";
        r_type := "str";
        r_shape := None;
        r_dtype := None;
        r_size_bytes := 169;
        r_device := None;
        r_value_preview :=
          Some (string_of_list_ascii (repeat "x"%char 100)) |}].
Proof. reflexivity. Qed.

(** A key that itself holds dots brings them into the path; a bound on
    the dots of a path can only be about keys without dots. *)
Remark dotted_key_adds_dots :
  exists d,
    analyze (VDict [("blocks.0.weight", VLeaf (LTensor Samples.float32_2x2))])
      "" 0 0 = Returns [d] /\
    dots (r_key d) = 2%nat.
Proof. eexists. split; reflexivity. Qed.

(** * Further properties *)

(** ** String facts *)

Lemma append_assoc (a b c : string) :
  ((a ++ b) ++ c = a ++ (b ++ c))%string.
Proof. induction a as [|ch a IH]; simpl; [reflexivity | now rewrite IH]. Qed.

Lemma append_cancel_left (a b c : string) :
  (a ++ b = a ++ c)%string -> b = c.
Proof.
  induction a as [|ch a IH]; simpl; intros H; [exact H|].
  injection H as H. now apply IH.
Qed.

Lemma truthy_append a b : truthy a = true -> truthy (a ++ b)%string = true.
Proof. now destruct a. Qed.

Lemma truthy_nonempty s : s <> "" -> truthy s = true.
Proof. destruct s; [congruence | reflexivity]. Qed.

(** Under a prefix that is not empty, the keys are appended one by one,
    each after a dot. *)
Lemma path_key_dotted keys : forall prefix,
  truthy prefix = true ->
  path_key prefix keys = (prefix ++ dotted keys)%string.
Proof.
  induction keys as [|key keys IH]; intros prefix Hp; simpl.
  - destruct prefix; [discriminate|]. simpl. f_equal.
    clear. induction prefix; simpl; [reflexivity | now f_equal].
  - rewrite Hp, IH by now apply truthy_append.
    now rewrite !append_assoc.
Qed.

(** ** Shape of the descriptors *)

(** X1.  Every descriptor of the result is of one of two kinds and never
    of both: a tensor descriptor, typed ["tensor"], with a shape, a dtype
    and a device and no preview; or a descriptor without shape, dtype and
    device, with a preview of at most 100 characters. *)
Theorem descriptors_are_of_two_kinds data prefix max_depth current_depth :
  exists ds,
    analyze data prefix max_depth current_depth = Returns ds /\
    Forall
      (fun d =>
         (r_type d = "tensor" /\
          (exists s dt dv,
             r_shape d = Some s /\ r_dtype d = Some dt /\
             r_device d = Some dv) /\
          r_value_preview d = None) \/
         (r_shape d = None /\ r_dtype d = None /\ r_device d = None /\
          exists p,
            r_value_preview d = Some p /\ (String.length p <= 100)%nat))
      ds.
Proof.
  exists (walk data prefix max_depth current_depth).
  split; [apply analyze_walk|].
  apply Forall_forall. intros d Hd.
  apply walk_only_leaves in Hd as (pos & keys & [t|o] & _ & _ & ->).
  - left. cbn. split; [reflexivity|]. split; [|reflexivity].
    now exists (shape t), (dtype t), (device t).
  - right. cbn. do 3 (split; [reflexivity|]).
    eexists. split; [reflexivity|].
    destruct (callable o); [cbn; lia|].
    rewrite slice_to_length. lia.
Qed.

(** ** The two depth arguments *)

Lemma walk_shift k data : forall prefix max_depth current_depth,
  walk data prefix (max_depth + k) (current_depth + k) =
  walk data prefix max_depth current_depth.
Proof.
  induction data as [items IH|l] using pyvalue_ind;
    intros prefix max_depth current_depth; [|now rewrite !walk_leaf].
  rewrite !walk_dict.
  replace (current_depth + k >? max_depth + k)
    with (current_depth >? max_depth)
    by (destruct (Z.gtb_spec current_depth max_depth),
                 (Z.gtb_spec (current_depth + k) (max_depth + k));
        (reflexivity || lia)).
  destruct (current_depth >? max_depth); [reflexivity|].
  induction IH as [|[key value] rest Hv _ IHrest]; [reflexivity|].
  cbn [flat_map]. rewrite IHrest. f_equal.
  unfold entry_results; cbn [fst snd]. cbn [snd] in Hv.
  destruct value as [sub|l]; [|reflexivity].
  replace (current_depth + k + 1) with (current_depth + 1 + k) by lia.
  apply Hv.
Qed.

(** X2.  Only the difference between [max_depth] and [current_depth]
    counts: adding the same number to both leaves the result unchanged. *)
Theorem only_the_depth_difference_counts data prefix
    max_depth current_depth k :
  analyze data prefix (max_depth + k) (current_depth + k) =
  analyze data prefix max_depth current_depth.
Proof. rewrite !analyze_walk. f_equal. apply walk_shift. Qed.

(** ** Dictionaries side by side *)

(** X3.  The result for a dictionary whose items are those of one
    dictionary followed by those of another is the result for the first
    followed by the result for the second. *)
Theorem items_side_by_side xs ys prefix max_depth current_depth :
  exists ds1 ds2,
    analyze (VDict xs) prefix max_depth current_depth = Returns ds1 /\
    analyze (VDict ys) prefix max_depth current_depth = Returns ds2 /\
    analyze (VDict (xs ++ ys)) prefix max_depth current_depth =
      Returns (ds1 ++ ds2).
Proof.
  exists (walk (VDict xs) prefix max_depth current_depth),
         (walk (VDict ys) prefix max_depth current_depth).
  now rewrite !analyze_walk, walk_dict_app.
Qed.

(** ** Keys and the prefix *)

(** X4.  When the prefix is not empty, the key of every descriptor of the
    result is the prefix, a dot, and more after it. *)
Theorem keys_start_with_the_prefix data prefix max_depth current_depth :
  prefix <> "" ->
  exists ds,
    analyze data prefix max_depth current_depth = Returns ds /\
    Forall (fun d => exists rest, r_key d = (prefix ++ "." ++ rest)%string)
      ds.
Proof.
  intros Hp. exists (walk data prefix max_depth current_depth).
  split; [apply analyze_walk|].
  apply Forall_forall. intros d Hd.
  apply walk_only_leaves in Hd as (pos & keys & l & [Hne Hn] & _ & ->).
  assert (Hkey : r_key (leaf_descriptor (path_key prefix keys) l) =
                 path_key prefix keys) by now destruct l.
  rewrite Hkey, path_key_dotted by now apply truthy_nonempty.
  apply node_at_length in Hn.
  destruct keys as [|key keys]; [destruct pos; [congruence|discriminate]|].
  now exists (key ++ dotted keys)%string.
Qed.

Lemma keys_start_with_the_prefix_witness :
  "model" <> "" /\
  exists ds,
    analyze Samples.two_entries "model" 3 0 = Returns ds /\
    Forall (fun d => exists rest, r_key d = ("model" ++ "." ++ rest)%string)
      ds.
Proof.
  split; [discriminate|].
  apply (keys_start_with_the_prefix Samples.two_entries "model" 3 0).
  discriminate.
Defined.

Lemma leaf_descriptor_reprefix prefix key l :
  leaf_descriptor (prefix ++ "." ++ key)%string l =
  reprefix prefix (leaf_descriptor key l).
Proof. now destruct l. Qed.

(** Below a prefix that is not empty, putting [outer] and a dot in front
    of the prefix puts them in front of every key. *)
Lemma walk_reprefix outer data : forall prefix max_depth current_depth,
  truthy prefix = true ->
  walk data (outer ++ "." ++ prefix)%string max_depth current_depth =
  map (reprefix outer) (walk data prefix max_depth current_depth).
Proof.
  induction data as [items IH|l] using pyvalue_ind;
    intros prefix max_depth current_depth Hp; [|now rewrite !walk_leaf].
  rewrite !walk_dict.
  destruct (current_depth >? max_depth); [reflexivity|].
  assert (Hop : truthy (outer ++ "." ++ prefix)%string = true)
    by (clear; destruct outer; reflexivity).
  induction IH as [|[key value] rest Hv _ IHrest]; [reflexivity|].
  cbn [flat_map]. rewrite map_app, IHrest. f_equal.
  unfold entry_results; cbn [fst snd]. cbn [snd] in Hv.
  rewrite Hop, Hp.
  replace ((outer ++ "." ++ prefix) ++ "." ++ key)%string
    with (outer ++ "." ++ (prefix ++ "." ++ key))%string
    by now rewrite !append_assoc.
  destruct value as [sub|l].
  - apply Hv. now apply truthy_append.
  - cbn [map]. now rewrite leaf_descriptor_reprefix.
Qed.

(** X5.  For a dictionary without empty keys, the result under a prefix
    that is not empty is the result under the empty prefix with the prefix
    and a dot put in front of every key. *)
Theorem prefix_goes_in_front_of_every_key items prefix
    max_depth current_depth :
  prefix <> "" ->
  Forall (fun kv => fst kv <> "") items ->
  exists ds,
    analyze (VDict items) "" max_depth current_depth = Returns ds /\
    analyze (VDict items) prefix max_depth current_depth =
      Returns (map (reprefix prefix) ds).
Proof.
  intros Hp Hkeys. exists (walk (VDict items) "" max_depth current_depth).
  rewrite !analyze_walk. split; [reflexivity|]. f_equal.
  rewrite !walk_dict. destruct (current_depth >? max_depth); [reflexivity|].
  apply truthy_nonempty in Hp.
  induction Hkeys as [|[key value] rest Hkey _ IHrest]; [reflexivity|].
  cbn [flat_map]. rewrite map_app, IHrest. f_equal.
  unfold entry_results; cbn [fst snd truthy]. rewrite Hp.
  destruct value as [sub|l].
  - apply walk_reprefix. now apply truthy_nonempty.
  - cbn [map]. now rewrite leaf_descriptor_reprefix.
Qed.

Lemma prefix_goes_in_front_of_every_key_witness :
  exists ds,
    analyze Samples.two_entries "" 3 0 = Returns ds /\
    analyze Samples.two_entries "model" 3 0 =
      Returns (map (reprefix "model") ds).
Proof.
  apply (prefix_goes_in_front_of_every_key
           [("a", VDict [("b", VLeaf (LTensor Samples.float32_2x2))]);
            ("c", VLeaf (LOther (Samples.int_obj "5")))] "model" 3 0).
  - discriminate.
  - repeat constructor; discriminate.
Defined.

(** X6.  Under the empty prefix, a dictionary wrapped under the empty key
    cannot be told from the dictionary itself: the result for the wrapper
    is the result for the dictionary with one level less of depth. *)
Theorem empty_key_wrapper_is_invisible sub max_depth current_depth :
  current_depth <= max_depth ->
  analyze (VDict [("", VDict sub)]) "" max_depth current_depth =
  analyze (VDict sub) "" (max_depth - 1) current_depth.
Proof.
  intros Hle. rewrite !analyze_walk. f_equal.
  rewrite walk_dict_cons by exact Hle.
  unfold entry_results; cbn [fst snd truthy].
  rewrite (walk_dict []).
  destruct (current_depth >? max_depth); rewrite app_nil_r;
    rewrite <- (walk_shift 1 (VDict sub) "" (max_depth - 1) current_depth);
    now replace (max_depth - 1 + 1) with max_depth by lia.
Qed.

Lemma empty_key_wrapper_is_invisible_witness :
  0 <= 3 /\
  analyze (VDict [("", VDict [("b", VLeaf (LTensor Samples.float32_2x2))])])
    "" 3 0 =
  analyze (VDict [("b", VLeaf (LTensor Samples.float32_2x2))]) "" (3 - 1) 0.
Proof.
  split; [lia|].
  apply (empty_key_wrapper_is_invisible
           [("b", VLeaf (LTensor Samples.float32_2x2))] 3 0).
  lia.
Defined.

(** ** The depth limit *)

Lemma subseq_refl {A : Type} (xs : list A) : subseq xs xs.
Proof. induction xs; constructor; assumption. Qed.

Lemma subseq_nil_left {A : Type} (xs : list A) : subseq [] xs.
Proof. induction xs; constructor; assumption. Qed.

Lemma subseq_app {A : Type} (xs xs' ys ys' : list A) :
  subseq xs xs' -> subseq ys ys' -> subseq (xs ++ ys) (xs' ++ ys').
Proof. induction 1; simpl; intros Hys; auto using @subseq. Qed.

Lemma walk_deeper data : forall prefix max_depth max_depth' current_depth,
  max_depth <= max_depth' ->
  subseq (walk data prefix max_depth current_depth)
         (walk data prefix max_depth' current_depth).
Proof.
  induction data as [items IH|l] using pyvalue_ind;
    intros prefix max_depth max_depth' current_depth Hle;
    [|rewrite !walk_leaf; constructor].
  rewrite !walk_dict.
  destruct (Z.gtb_spec current_depth max_depth) as [Hgt|Hin];
    [apply subseq_nil_left|].
  destruct (Z.gtb_spec current_depth max_depth'); [lia|].
  induction IH as [|[key value] rest Hv _ IHrest]; [constructor|].
  cbn [flat_map]. apply subseq_app; [|exact IHrest].
  unfold entry_results; cbn [fst snd]. cbn [snd] in Hv.
  destruct value as [sub|l]; [now apply Hv | apply subseq_refl].
Qed.

(** X7.  Raising [max_depth] never loses a descriptor and never reorders:
    the result for the lower limit is the result for the higher limit with
    some descriptors left out. *)
Theorem higher_limit_keeps_every_descriptor data prefix
    max_depth max_depth' current_depth :
  max_depth <= max_depth' ->
  exists ds ds',
    analyze data prefix max_depth current_depth = Returns ds /\
    analyze data prefix max_depth' current_depth = Returns ds' /\
    subseq ds ds'.
Proof.
  intros Hle.
  exists (walk data prefix max_depth current_depth),
         (walk data prefix max_depth' current_depth).
  rewrite !analyze_walk. do 2 (split; [reflexivity|]).
  now apply walk_deeper.
Qed.

Lemma higher_limit_keeps_every_descriptor_witness :
  3 <= 5 /\
  exists ds ds',
    analyze Samples.nested5 "" 3 0 = Returns ds /\
    analyze Samples.nested5 "" 5 0 = Returns ds' /\
    subseq ds ds'.
Proof.
  split; [lia|].
  apply (higher_limit_keeps_every_descriptor Samples.nested5 "" 3 5 0). lia.
Defined.

Lemma height_cons key value rest :
  height (VDict ((key, value) :: rest)) =
  S (Nat.max (height value) (Nat.pred (height (VDict rest)))).
Proof. reflexivity. Qed.

Lemma count_leaves_cons key value rest :
  count_leaves (VDict ((key, value) :: rest)) =
  (match value with
   | VDict _ => count_leaves value
   | VLeaf _ => 1
   end + count_leaves (VDict rest))%nat.
Proof. reflexivity. Qed.

Lemma tree_size_cons key value rest :
  tree_size (VDict ((key, value) :: rest)) =
  match value with
  | VDict _ => tree_size value
  | VLeaf l => leaf_size l
  end + tree_size (VDict rest).
Proof. reflexivity. Qed.

Lemma key_size_from ds : forall acc,
  fold_left (fun total item => total + r_size_bytes item) ds acc =
  acc + key_size ds.
Proof.
  unfold key_size. induction ds as [|d ds IH]; intros acc; simpl; [lia|].
  rewrite IH, (IH (r_size_bytes d)). lia.
Qed.

Lemma key_size_app xs ys : key_size (xs ++ ys) = key_size xs + key_size ys.
Proof.
  unfold key_size at 1. rewrite fold_left_app, key_size_from.
  reflexivity.
Qed.

Lemma key_size_leaf key l : key_size [leaf_descriptor key l] = leaf_size l.
Proof. now destruct l. Qed.

(** With a limit that covers the height of the value, every leaf is
    reported. *)
Lemma walk_covers data : forall prefix max_depth current_depth,
  current_depth + Z.of_nat (height data) - 1 <= max_depth ->
  List.length (walk data prefix max_depth current_depth) = count_leaves data /\
  key_size (walk data prefix max_depth current_depth) = tree_size data.
Proof.
  induction data as [items IH|l] using pyvalue_ind;
    intros prefix max_depth current_depth Hh;
    [|now rewrite walk_leaf].
  assert (Hle : current_depth <= max_depth) by (simpl height in Hh; lia).
  induction IH as [|[key value] rest Hv _ IHrest].
  - rewrite walk_dict. now destruct (current_depth >? max_depth).
  - rewrite walk_dict_cons, length_app, key_size_app by exact Hle.
    rewrite count_leaves_cons, tree_size_cons, height_cons in *.
    destruct IHrest as [IHlen IHsize]; [simpl height in *; lia|].
    rewrite IHlen, IHsize.
    unfold entry_results; cbn [fst snd]. cbn [snd] in Hv.
    destruct value as [sub|l].
    + destruct (Hv (if truthy prefix then (prefix ++ "." ++ key)%string
                    else key) max_depth (current_depth + 1)) as [Hl Hs];
        [lia|].
      now rewrite Hl, Hs.
    + now rewrite key_size_leaf.
Qed.

(** X8.  When [max_depth - current_depth + 1] is at least the number of
    dictionaries nested in one another in the value, the result holds one
    descriptor for every leaf of the value, and a higher limit gives the
    same result. *)
Theorem enough_depth_reports_every_leaf data prefix
    max_depth current_depth :
  current_depth + Z.of_nat (height data) - 1 <= max_depth ->
  exists ds,
    analyze data prefix max_depth current_depth = Returns ds /\
    List.length ds = count_leaves data /\
    forall max_depth',
      max_depth <= max_depth' ->
      analyze data prefix max_depth' current_depth = Returns ds.
Proof.
  intros Hh. exists (walk data prefix max_depth current_depth).
  split; [apply analyze_walk|].
  split; [now apply walk_covers|].
  intros max_depth' Hle. rewrite analyze_walk. f_equal.
  pose proof (walk_deeper data prefix max_depth max_depth' current_depth Hle)
    as Hsub.
  assert (Hlen : List.length (walk data prefix max_depth current_depth) =
                 List.length (walk data prefix max_depth' current_depth)).
  { rewrite (proj1 (walk_covers data prefix max_depth current_depth Hh)).
    symmetry. apply walk_covers. lia. }
  clear -Hsub Hlen.
  assert (Hbound : forall (xs ys : list descriptor),
             subseq xs ys -> (List.length xs <= List.length ys)%nat)
    by (induction 1; simpl; lia).
  induction Hsub as [|x xs ys Hs IH|x xs ys Hs IH]; [reflexivity| |].
  - apply Hbound in Hs. simpl in Hlen. lia.
  - simpl in Hlen. f_equal. apply IH. lia.
Qed.

Lemma enough_depth_reports_every_leaf_witness :
  0 + Z.of_nat (height Samples.two_entries) - 1 <= 3 /\
  exists ds,
    analyze Samples.two_entries "" 3 0 = Returns ds /\
    List.length ds = count_leaves Samples.two_entries /\
    forall max_depth',
      3 <= max_depth' ->
      analyze Samples.two_entries "" max_depth' 0 = Returns ds.
Proof.
  assert (H : 0 + Z.of_nat (height Samples.two_entries) - 1 <= 3)
    by (simpl; lia).
  split; [exact H|].
  exact (enough_depth_reports_every_leaf Samples.two_entries "" 3 0 H).
Defined.

(** ** The size summed by the caller *)

(** X9.  When the limit covers the height of the value, the size the
    caller sums over the result is the sum of the sizes of all leaves of
    the value: [numel * element_size] for a tensor, [sys.getsizeof] for any
    other leaf. *)
Theorem key_size_is_the_size_of_all_leaves data prefix
    max_depth current_depth :
  current_depth + Z.of_nat (height data) - 1 <= max_depth ->
  exists ds,
    analyze data prefix max_depth current_depth = Returns ds /\
    key_size ds = tree_size data.
Proof.
  intros Hh. exists (walk data prefix max_depth current_depth).
  split; [apply analyze_walk | now apply walk_covers].
Qed.

Lemma key_size_is_the_size_of_all_leaves_witness :
  0 + Z.of_nat (height Samples.two_entries) - 1 <= 3 /\
  exists ds,
    analyze Samples.two_entries "" 3 0 = Returns ds /\
    key_size ds = 44.
Proof.
  assert (H : 0 + Z.of_nat (height Samples.two_entries) - 1 <= 3)
    by (simpl; lia).
  split; [exact H|].
  exact (key_size_is_the_size_of_all_leaves Samples.two_entries "" 3 0 H).
Defined.

Lemma sizes_nonneg_cons key value rest :
  sizes_nonneg (VDict ((key, value) :: rest)) <->
  match value with
  | VDict _ => sizes_nonneg value
  | VLeaf l => 0 <= leaf_size l
  end /\ sizes_nonneg (VDict rest).
Proof. reflexivity. Qed.

Lemma tree_size_nonneg data : sizes_nonneg data -> 0 <= tree_size data.
Proof.
  induction data as [items IH|l] using pyvalue_ind; [|simpl; lia].
  induction IH as [|[key value] rest Hv _ IHrest]; [simpl; lia|].
  rewrite sizes_nonneg_cons, tree_size_cons. intros [Hvalue Hrest].
  specialize (IHrest Hrest). cbn [snd] in Hv.
  destruct value as [sub|l]; [specialize (Hv Hvalue)|]; lia.
Qed.

Lemma walk_size_bounds data : forall prefix max_depth current_depth,
  sizes_nonneg data ->
  0 <= key_size (walk data prefix max_depth current_depth) <= tree_size data.
Proof.
  induction data as [items IH|l] using pyvalue_ind;
    intros prefix max_depth current_depth Hpos;
    [|rewrite walk_leaf; cbn; lia].
  destruct (Z.gtb_spec current_depth max_depth) as [Hgt|Hle].
  { rewrite walk_over_depth by lia. apply tree_size_nonneg in Hpos.
    cbn [key_size fold_left]. lia. }
  induction IH as [|[key value] rest Hv _ IHrest].
  - rewrite walk_dict. destruct (current_depth >? max_depth); cbn; lia.
  - rewrite walk_dict_cons, key_size_app, tree_size_cons by exact Hle.
    apply sizes_nonneg_cons in Hpos as [Hvalue Hrest].
    specialize (IHrest Hrest).
    unfold entry_results; cbn [fst snd]. cbn [snd] in Hv.
    destruct value as [sub|l].
    + specialize (Hv (if truthy prefix then (prefix ++ "." ++ key)%string
                      else key) max_depth (current_depth + 1) Hvalue).
      lia.
    + rewrite key_size_leaf. lia.
Qed.

(** X10.  When no leaf has a negative size, the size the caller sums over
    the result is not negative and never exceeds the sum of the sizes of
    all leaves of the value: the depth limit can only leave sizes out. *)
Theorem key_size_never_exceeds_the_leaves data prefix
    max_depth current_depth :
  sizes_nonneg data ->
  exists ds,
    analyze data prefix max_depth current_depth = Returns ds /\
    0 <= key_size ds <= tree_size data.
Proof.
  intros Hpos. exists (walk data prefix max_depth current_depth).
  split; [apply analyze_walk | now apply walk_size_bounds].
Qed.

Lemma key_size_never_exceeds_the_leaves_witness :
  sizes_nonneg Samples.nested5 /\
  exists ds,
    analyze Samples.nested5 "" 3 0 = Returns ds /\
    0 <= key_size ds <= tree_size Samples.nested5.
Proof.
  assert (H : sizes_nonneg Samples.nested5) by (simpl; lia).
  split; [exact H|].
  exact (key_size_never_exceeds_the_leaves Samples.nested5 "" 3 0 H).
Defined.

(** ** The items the caller lists as tensors *)

Lemma tensor_item_fields_of_tensor key t h :
  tensor_item_fields (leaf_descriptor key (LTensor t)) h =
  Returns ((key, shape t, dtype t, numel t * element_size t), h).
Proof. reflexivity. Qed.

Lemma has_object_named_cons name key value rest :
  has_object_named name (VDict ((key, value) :: rest)) =
  has_object_named name value || has_object_named name (VDict rest).
Proof. reflexivity. Qed.

Lemma no_object_named_leaf name data : forall pos keys o,
  has_object_named name data = false ->
  node_at data pos = Some (keys, VLeaf (LOther o)) ->
  type_name o <> name.
Proof.
  induction data as [items IH|l] using pyvalue_ind; intros pos keys o Hno Hn.
  - destruct pos as [|i pos]; [discriminate|]. simpl in Hn. revert i Hn.
    induction IH as [|[key value] rest Hv _ IHrest]; intros i Hn;
      [destruct i; discriminate|].
    rewrite has_object_named_cons in Hno.
    apply orb_false_elim in Hno as [Hvalue Hrest].
    destruct i as [|i]; simpl in Hn.
    + destruct (node_at value pos) as [[keys' x]|] eqn:E; [|discriminate].
      injection Hn as _ ->. exact (Hv pos keys' o Hvalue E).
    + exact (IHrest Hrest i Hn).
  - destruct pos; [|discriminate]. injection Hn as _ ->.
    now apply String.eqb_neq.
Qed.

(** X11.  When no leaf other than a tensor has a type named ["tensor"],
    the items the caller lists as tensors are the descriptors of tensor
    leaves, and the line printed for each of them finds the keys it reads:
    no [KeyError] is raised. *)
Theorem tensor_items_hold_shape_and_dtype data prefix
    max_depth current_depth :
  has_object_named "tensor" data = false ->
  exists ds,
    analyze data prefix max_depth current_depth = Returns ds /\
    Forall
      (fun item =>
         (exists pos keys t,
            leaf_at data pos keys (LTensor t) /\
            item = leaf_descriptor (path_key prefix keys) (LTensor t)) /\
         forall h, exists fields,
           tensor_item_fields item h = Returns (fields, h))
      (tensor_items ds).
Proof.
  intros Hnames. exists (walk data prefix max_depth current_depth).
  split; [apply analyze_walk|].
  apply Forall_forall. intros item Hitem.
  apply filter_In in Hitem as [Hin Htype].
  apply walk_only_leaves in Hin as (pos & keys & [t|o] & Hl & _ & ->).
  - split; [now exists pos, keys, t|].
    intros h. eexists. apply tensor_item_fields_of_tensor.
  - apply String.eqb_eq in Htype. cbn in Htype. destruct Hl as [_ Hn].
    now destruct (no_object_named_leaf _ _ _ _ _ Hnames Hn).
Qed.

Lemma tensor_items_hold_shape_and_dtype_witness :
  has_object_named "tensor" Samples.two_entries = false /\
  exists ds,
    analyze Samples.two_entries "" 3 0 = Returns ds /\
    Forall
      (fun item =>
         (exists pos keys t,
            leaf_at Samples.two_entries pos keys (LTensor t) /\
            item = leaf_descriptor (path_key "" keys) (LTensor t)) /\
         forall h, exists fields,
           tensor_item_fields item h = Returns (fields, h))
      (tensor_items ds).
Proof.
  split; [reflexivity|].
  apply (tensor_items_hold_shape_and_dtype Samples.two_entries "" 3 0).
  reflexivity.
Defined.

(** X12.  A leaf that is not a tensor but whose type is named ["tensor"]
    is listed by the caller among the tensors, and the line printed for it
    raises [KeyError] on ['shape']. *)
Theorem object_named_tensor_raises_key_error data prefix
    max_depth current_depth pos keys o :
  leaf_at data pos keys (LOther o) ->
  type_name o = "tensor" ->
  current_depth + Z.of_nat (List.length pos) - 1 <= max_depth ->
  exists ds item,
    analyze data prefix max_depth current_depth = Returns ds /\
    In item (tensor_items ds) /\
    r_key item = path_key prefix keys /\
    forall h, tensor_item_fields item h = Raises (KeyError "shape").
Proof.
  intros Hl Hname Hdepth.
  exists (walk data prefix max_depth current_depth),
         (leaf_descriptor (path_key prefix keys) (LOther o)).
  split; [apply analyze_walk|]. split; [|split; reflexivity].
  apply filter_In. split; [now apply walk_holds_leaf with (pos := pos)|].
  cbn. now rewrite Hname.
Qed.

Lemma object_named_tensor_raises_key_error_witness :
  exists ds item,
    analyze (VDict [("x", VLeaf (LOther Samples.tensor_named_obj))]) "" 3 0 =
      Returns ds /\
    In item (tensor_items ds) /\
    r_key item = "x" /\
    forall h, tensor_item_fields item h = Raises (KeyError "shape").
Proof.
  apply (object_named_tensor_raises_key_error
           (VDict [("x", VLeaf (LOther Samples.tensor_named_obj))]) "" 3 0
           [0%nat] ["x"] Samples.tensor_named_obj).
  - split; [discriminate | reflexivity].
  - reflexivity.
  - simpl. lia.
Defined.

(** ** Keys that tell the leaves apart *)

Lemma well_keyed_cons key value rest :
  well_keyed (VDict ((key, value) :: rest)) ->
  ~ In key (map fst rest) /\ key <> "" /\ dots key = 0%nat /\
  well_keyed value /\ well_keyed (VDict rest).
Proof.
  simpl. intros [Hnd (Hne & Hdot & Hvalue & Hrest)].
  inversion Hnd as [|? ? Hnotin Hnd']; subst. tauto.
Qed.

Lemma well_keyed_node data : forall pos keys x,
  well_keyed data ->
  node_at data pos = Some (keys, x) ->
  Forall (fun key => key <> "" /\ dots key = 0%nat) keys.
Proof.
  induction data as [items IH|l] using pyvalue_ind; intros pos keys x Hwk Hn.
  - destruct pos as [|i pos]; [injection Hn as <- _; constructor|].
    simpl in Hn. revert i Hn.
    induction IH as [|[key value] rest Hv _ IHrest]; intros i Hn;
      [destruct i; discriminate|].
    apply well_keyed_cons in Hwk as (_ & Hne & Hdot & Hvalue & Hrest).
    destruct i as [|i]; simpl in Hn.
    + destruct (node_at value pos) as [[keys' x']|] eqn:E; [|discriminate].
      injection Hn as <- _. constructor; [now split|].
      exact (Hv pos keys' x' Hvalue E).
    + exact (IHrest Hrest i Hn).
  - destruct pos; [injection Hn as <- _; constructor | discriminate].
Qed.

(** In a value with distinct keys in each dictionary, the keys on the way
    lead to one position only. *)
Lemma well_keyed_position data : forall pos pos' keys x x',
  well_keyed data ->
  node_at data pos = Some (keys, x) ->
  node_at data pos' = Some (keys, x') ->
  pos = pos'.
Proof.
  induction data as [items IH|l] using pyvalue_ind;
    intros pos pos' keys x x' Hwk Hn Hn'.
  - destruct pos as [|i pos], pos' as [|i' pos'].
    + reflexivity.
    + injection Hn as <- _. simpl in Hn'.
      destruct (nth_error items i') as [[k v]|]; [|discriminate].
      destruct (node_at v pos') as [[ks y]|]; discriminate.
    + injection Hn' as <- _. simpl in Hn.
      destruct (nth_error items i) as [[k v]|]; [|discriminate].
      destruct (node_at v pos) as [[ks y]|]; discriminate.
    + simpl in Hn, Hn'. revert i i' Hn Hn'.
      induction IH as [|[key value] rest Hv _ IHrest]; intros i i' Hn Hn';
        [destruct i; discriminate|].
      apply well_keyed_cons in Hwk as (Hnotin & _ & _ & Hvalue & Hrest).
      assert (Hother : forall j p,
                 match nth_error rest j with
                 | Some (k, v) =>
                     match node_at v p with
                     | Some (ks, y) => Some (k :: ks, y)
                     | None => None
                     end
                 | None => None
                 end = Some (keys, x) \/
                 match nth_error rest j with
                 | Some (k, v) =>
                     match node_at v p with
                     | Some (ks, y) => Some (k :: ks, y)
                     | None => None
                     end
                 | None => None
                 end = Some (keys, x') ->
                 exists ks, keys = ks /\ In (hd "" ks) (map fst rest)).
      { intros j p Hj. exists keys. split; [reflexivity|].
        destruct (nth_error rest j) as [[k v]|] eqn:Ej;
          [|destruct Hj; discriminate].
        apply nth_error_In in Ej. apply (in_map fst) in Ej.
        destruct (node_at v p) as [[ks y]|]; [|destruct Hj; discriminate].
        destruct Hj as [Hj|Hj]; injection Hj as <- _; exact Ej. }
      destruct i as [|i], i' as [|i']; simpl in Hn, Hn'.
      * destruct (node_at value pos) as [[ks y]|] eqn:E; [|discriminate].
        destruct (node_at value pos') as [[ks' y']|] eqn:E'; [|discriminate].
        injection Hn as <- _. injection Hn' as Hks _.
        subst ks'. f_equal. exact (Hv pos pos' ks y y' Hvalue E E').
      * destruct (node_at value pos) as [[ks y]|] eqn:E; [|discriminate].
        injection Hn as <- _.
        destruct (Hother i' pos' (or_intror Hn')) as (? & <- & Hin).
        now destruct Hnotin.
      * destruct (node_at value pos') as [[ks y]|] eqn:E; [|discriminate].
        injection Hn' as <- _.
        destruct (Hother i pos (or_introl Hn)) as (? & <- & Hin).
        now destruct Hnotin.
      * specialize (IHrest Hrest i i' Hn Hn'). now injection IHrest as -> ->.
  - destruct pos, pos'; (reflexivity || discriminate).
Qed.

(** A text without dots, followed by nothing or by a dot and more, is read
    back in one way only. *)
Lemma dot_free_split a : forall b r r',
  dots a = 0%nat -> dots b = 0%nat ->
  (r = "" \/ exists s, r = String "." s) ->
  (r' = "" \/ exists s, r' = String "." s) ->
  (a ++ r = b ++ r')%string ->
  a = b /\ r = r'.
Proof.
  assert (Hdot : forall ch s, dots (String ch s) = 0%nat -> ch <> "."%char).
  { intros ch s H ->. simpl in H. discriminate. }
  assert (Htail : forall ch s, dots (String ch s) = 0%nat -> dots s = 0%nat).
  { intros ch s H. simpl in H. destruct (Ascii.eqb ch "."); [discriminate|].
    exact H. }
  induction a as [|ch a IH]; intros b r r' Ha Hb Hr Hr' Heq.
  - destruct b as [|ch' b]; [now split|]. simpl in Heq.
    destruct Hr as [->|[s ->]]; [discriminate|].
    injection Heq as <- _. now destruct (Hdot _ _ Hb).
  - destruct b as [|ch' b]; simpl in Heq.
    + destruct Hr' as [->|[s ->]]; [discriminate|].
      injection Heq as -> _. now destruct (Hdot _ _ Ha).
    + injection Heq as <- Heq.
      destruct (IH b r r' (Htail _ _ Ha) (Htail _ _ Hb) Hr Hr' Heq)
        as [-> ->].
      now split.
Qed.

Lemma dotted_shape keys :
  dotted keys = "" \/ exists s, dotted keys = String "." s.
Proof. destruct keys as [|key keys]; [now left | right; now eexists]. Qed.

Lemma dotted_inj keys : forall keys',
  Forall (fun key => key <> "" /\ dots key = 0%nat) keys ->
  Forall (fun key => key <> "" /\ dots key = 0%nat) keys' ->
  dotted keys = dotted keys' -> keys = keys'.
Proof.
  induction keys as [|key keys IH]; intros keys' Hk Hk' Heq.
  - destruct keys'; [reflexivity | discriminate].
  - destruct keys' as [|key' keys']; [discriminate|].
    inversion Hk as [|? ? [_ Hd] Hks]; subst.
    inversion Hk' as [|? ? [_ Hd'] Hks']; subst.
    simpl in Heq. injection Heq as Heq.
    destruct (dot_free_split _ _ _ _ Hd Hd' (dotted_shape keys)
                (dotted_shape keys') Heq) as [-> Hrest].
    f_equal. now apply IH.
Qed.

Lemma path_key_inj prefix keys keys' :
  Forall (fun key => key <> "" /\ dots key = 0%nat) keys ->
  Forall (fun key => key <> "" /\ dots key = 0%nat) keys' ->
  keys <> [] -> keys' <> [] ->
  path_key prefix keys = path_key prefix keys' ->
  keys = keys'.
Proof.
  intros Hk Hk' Hne Hne' Heq.
  destruct (truthy prefix) eqn:Hp.
  - rewrite !path_key_dotted in Heq by exact Hp.
    apply append_cancel_left in Heq. now apply dotted_inj.
  - destruct prefix; [|discriminate].
    destruct keys as [|key keys]; [congruence|].
    destruct keys' as [|key' keys']; [congruence|].
    inversion Hk as [|? ? [Hn Hd] Hks]; subst.
    inversion Hk' as [|? ? [Hn' Hd'] Hks']; subst.
    cbn [path_key truthy] in Heq.
    rewrite !path_key_dotted in Heq by now apply truthy_nonempty.
    destruct (dot_free_split _ _ _ _ Hd Hd' (dotted_shape keys)
                (dotted_shape keys') Heq) as [-> Hrest].
    f_equal. now apply dotted_inj.
Qed.

Lemma NoDup_map_Forall2 {A B C : Type} (R : A -> B -> Prop) (f : B -> C)
    xs ys :
  Forall2 R xs ys -> NoDup xs ->
  (forall x x' y y', R x y -> R x' y' -> f y = f y' -> x = x') ->
  NoDup (map f ys).
Proof.
  intros HR Hnd Hinj.
  induction HR as [|x y xs ys Hxy HR IH]; simpl; [constructor|].
  inversion Hnd as [|? ? Hnotin Hnd']; subst.
  constructor; [|now apply IH].
  intros Hin. apply in_map_iff in Hin as (y' & Heq & Hy').
  destruct (Forall2_ex_left _ _ _ _ HR Hy') as (x' & Hx' & Hxy').
  rewrite (Hinj x x' y y' Hxy Hxy' (eq_sym Heq)) in Hnotin.
  now destruct Hnotin.
Qed.

(** X13.  When the keys of every dictionary of the value are pairwise
    distinct, not empty and free of dots, no two descriptors of the result
    have the same key. *)
Theorem distinct_leaves_get_distinct_keys data prefix
    max_depth current_depth :
  well_keyed data ->
  exists ds,
    analyze data prefix max_depth current_depth = Returns ds /\
    NoDup (map r_key ds).
Proof.
  intros Hwk. exists (walk data prefix max_depth current_depth).
  split; [apply analyze_walk|].
  apply (NoDup_map_Forall2 (describes data prefix) r_key
           (leaf_positions data max_depth current_depth)).
  - apply walk_describes.
  - apply (StronglySorted_NoDup dfs_lt);
      [apply dfs_lt_irrefl | apply leaf_positions_sorted].
  - intros pos pos' d d' (keys & l & [Hne Hn] & ->)
      (keys' & l' & [Hne' Hn'] & ->) Hkey.
    assert (Hk : forall key (x : leaf),
               r_key (leaf_descriptor key x) = key) by now destruct x.
    rewrite !Hk in Hkey.
    assert (Hnil : forall (p : list nat) ks (x : pyvalue),
               p <> [] -> node_at data p = Some (ks, x) -> ks <> []).
    { intros p ks x Hp Hx ->. apply node_at_length in Hx.
      destruct p; [congruence | discriminate]. }
    apply path_key_inj in Hkey;
      eauto using well_keyed_node.
    subst keys'. exact (well_keyed_position _ _ _ _ _ _ Hwk Hn Hn').
Qed.

Lemma distinct_leaves_get_distinct_keys_witness :
  well_keyed Samples.nested5 /\
  exists ds,
    analyze Samples.nested5 "" 3 0 = Returns ds /\
    NoDup (map r_key ds).
Proof.
  assert (H : well_keyed Samples.nested5).
  { simpl. repeat split;
      try discriminate;
      repeat (constructor; [simpl; intuition discriminate|]);
      constructor. }
  split; [exact H|].
  exact (distinct_leaves_get_distinct_keys Samples.nested5 "" 3 0 H).
Defined.

(** ** [format_size] *)

Section FormatSize.
Context {F : FloatOps}.

(** From a float, the loop stops by its own test within the four rounds
    the units allow; it divides as long as the value is at least 1024 and
    a larger unit is left. *)
Lemma format_size_loop_float fuel : forall x i,
  (i <= 4)%nat -> (4 - i <= fuel)%nat ->
  exists y k,
    (i + k <= 4)%nat /\
    format_size_loop fuel (NFloat x) i = Done (NFloat y, (i + k)%nat) /\
    scaled (NFloat x) k = Some (NFloat y) /\
    (forall j, (j < k)%nat ->
       exists w, scaled (NFloat x) j = Some w /\ number_ge_1024 w = true) /\
    ((i + k < 4)%nat -> float_ge_1024 y = false).
Proof.
  induction fuel as [|fuel IH]; intros x i Hi Hfuel.
  - assert (i = 4%nat) by lia. subst i. exists x, 0%nat.
    cbn. rewrite andb_false_r.
    repeat split; [lia | intros j Hj; lia | lia].
  - cbn [format_size_loop number_ge_1024 number_div_1024].
    change (List.length size_names - 1)%nat with 4%nat.
    destruct (float_ge_1024 x) eqn:Hge;
      [destruct (Nat.ltb_spec i 4) as [Hlt|Hnlt]|]; cbn [andb].
    + destruct (IH (float_div_1024 x) (i + 1)%nat) as
        (y & k & Hk & Hrun & Hscaled & Hbefore & Hafter); [lia..|].
      exists y, (S k). replace (i + S k)%nat with (i + 1 + k)%nat by lia.
      split; [lia|]. split; [exact Hrun|]. split; [exact Hscaled|].
      split; [|exact Hafter].
      intros [|j] Hj.
      * exists (NFloat x). split; [reflexivity | exact Hge].
      * destruct (Hbefore j) as (w & Hw & Hgew); [lia|]. now exists w.
    + exists x, 0%nat. replace (i + 0)%nat with i by lia.
      repeat split; [lia | intros j Hj; lia | lia].
    + exists x, 0%nat. replace (i + 0)%nat with i by lia.
      repeat split; [lia | intros j Hj; lia | intros _; exact Hge].
Qed.

(** X14.  [format_size] always ends: its loop never needs more than the
    four rounds the five units allow, and the unit index never leaves the
    list of names.  It returns a text that ends in one of the five names,
    or raises [OverflowError]; the latter only for an [int] that
    [float] cannot convert, never for a float. *)
Theorem format_size_stays_within_the_units (size_bytes : number) :
  (exists text name,
     In name size_names /\
     format_size size_bytes = Done (text ++ name)%string) \/
  (exists n,
     size_bytes = NInt n /\ float_of_int n = None /\
     format_size size_bytes = Raised OverflowError).
Proof.
  unfold format_size.
  destruct (number_eq_0 size_bytes) eqn:Hzero.
  { left. exists "0", "B". split; [now left | reflexivity]. }
  change (List.length size_names) with 5%nat.
  assert (Hfloat : forall x,
    exists text name,
      In name size_names /\
      match format_size_loop 4 (NFloat x) 1 with
      | Done (size_bytes', i) =>
          match number_format_2f size_bytes' with
          | Some text =>
              match nth_error size_names i with
              | Some name => Done (text ++ name)%string
              | None => Raised IndexError
              end
          | None => Raised OverflowError
          end
      | Raised e => Raised e
      | OutOfFuel => OutOfFuel
      end = Done (text ++ name)%string).
  { intros x.
    destruct (format_size_loop_float 4 x 1) as (y & k & Hk & -> & _);
      [lia..|].
    cbn [number_format_2f].
    destruct k as [|[|[|[|k]]]]; try lia; cbn;
      eexists; eexists; (split; [|reflexivity]); cbn; tauto. }
  destruct size_bytes as [n|x].
  - cbn [format_size_loop number_ge_1024 number_div_1024].
    destruct (1024 <=? n) eqn:Hge; cbn.
    + destruct (float_of_int n) as [x|] eqn:Hconv.
      * left. apply Hfloat.
      * right. now exists n.
    + destruct (float_of_int n) as [x|] eqn:Hconv.
      * left. exists (format_2f x), "B". split; [now left | reflexivity].
      * right. now exists n.
  - left.
    destruct (format_size_loop_float 5 x 0) as (y & k & Hk & -> & _);
      [lia..|].
    cbn [number_format_2f].
    destruct k as [|[|[|[|[|k]]]]]; try lia; cbn;
      eexists; eexists; (split; [|reflexivity]); cbn; tauto.
Qed.

(** X15.  An [int] below 1024 that is not zero, a negative one included,
    is shown in bytes whatever its size: the text is that of [float(n)]
    with two decimals, followed by ["B"]. *)
Theorem format_size_below_1024_stays_in_bytes (n : Z) :
  n <> 0 -> n < 1024 ->
  format_size (NInt n) =
  match float_of_int n with
  | Some x => Done (format_2f x ++ "B")%string
  | None => Raised OverflowError
  end.
Proof.
  intros Hnz Hlt. unfold format_size. cbn [number_eq_0].
  destruct (Z.eqb_spec n 0); [congruence|].
  cbn [List.length size_names format_size_loop number_ge_1024].
  destruct (Z.leb_spec 1024 n); [lia|]. cbn.
  now destruct (float_of_int n).
Qed.

(** X16.  When [format_size] returns for a float that is not zero, the
    unit is the first of the five at which the value, divided by 1024
    once per unit passed, is below 1024, or ["TB"] when there is none: the
    value was at least 1024 at every unit passed, and the text is that of
    the value at the unit chosen. *)
Theorem format_size_picks_the_first_unit_below_1024 (x : float) :
  float_eq_0 x = false ->
  exists k y name,
    (k <= 4)%nat /\
    scaled (NFloat x) k = Some (NFloat y) /\
    (forall j, (j < k)%nat ->
       exists w, scaled (NFloat x) j = Some w /\ number_ge_1024 w = true) /\
    ((k < 4)%nat -> float_ge_1024 y = false) /\
    nth_error size_names k = Some name /\
    format_size (NFloat x) = Done (format_2f y ++ name)%string.
Proof.
  intros Hnz. unfold format_size. cbn [number_eq_0]. rewrite Hnz.
  destruct (format_size_loop_float (List.length size_names) x 0)
    as (y & k & Hk & -> & Hscaled & Hbefore & Hafter); [cbn; lia..|].
  cbn [plus number_format_2f] in *.
  assert (Hname : exists name, nth_error size_names k = Some name).
  { destruct k as [|[|[|[|[|k]]]]]; try lia; cbn; eauto. }
  destruct Hname as [name Hname]. exists k, y, name.
  rewrite Hname. repeat split; try assumption.
Qed.

End FormatSize.

Lemma format_size_below_1024_stays_in_bytes_witness :
  -5000000 <> 0 /\ -5000000 < 1024 /\
  @format_size exact_floats (NInt (-5000000)) = Done "-5000000.00B".
Proof.
  split; [lia|]. split; [lia|].
  rewrite (@format_size_below_1024_stays_in_bytes exact_floats (-5000000))
    by lia.
  reflexivity.
Defined.

Lemma format_size_picks_the_first_unit_below_1024_witness :
  exists k y name,
    (k <= 4)%nat /\
    @scaled exact_floats (NFloat (7680000000 # 1)) k = Some (NFloat y) /\
    (forall j, (j < k)%nat ->
       exists w,
         @scaled exact_floats (NFloat (7680000000 # 1)) j = Some w /\
         number_ge_1024 w = true) /\
    ((k < 4)%nat -> @float_ge_1024 exact_floats y = false) /\
    nth_error size_names k = Some name /\
    @format_size exact_floats (NFloat (7680000000 # 1)) =
      Done (@format_2f exact_floats y ++ name)%string.
Proof.
  apply (@format_size_picks_the_first_unit_below_1024 exact_floats
           (7680000000 # 1)).
  reflexivity.
Defined.

(** Concrete runs, with exact arithmetic. *)
Example format_size_runs :
  @format_size exact_floats (NInt 0) = Done "0B" /\
  @format_size exact_floats (NInt 1023) = Done "1023.00B" /\
  @format_size exact_floats (NInt 1536) = Done "1.50KB" /\
  @format_size exact_floats (NInt 1152) = Done "1.12KB" /\
  @format_size exact_floats (NFloat (7680000000 # 1)) = Done "7.15GB" /\
  @format_size exact_floats (NInt (5 * 1024 ^ 5)) = Done "5120.00TB".
Proof. repeat split; vm_compute; reflexivity. Qed.


(** ** The size recorded for a top-level key *)

(** X17.  Whenever one walk, with [max_depth = 4], of the checkpoint that
    holds a top-level entry alone returns, the size the caller records
    for that entry returns too and is the size summed over that walk:
    leaves more than three dictionaries below a top-level value are not
    counted.  The store only grows. *)
Theorem recorded_size_is_a_walk_of_depth_4 key value ds :
  analyze_any (ADict [(key, value)]) "" 4 0 = Ok ds ->
  forall h, exists new,
    recorded_size_any key value h = Ok (key_size ds, h ++ new).
Proof.
  rewrite analyze_any_outcome, first_raised_dict, as_value_dict, walk_dict.
  change (0 >? 4) with false. cbv iota.
  cbn [items_raised map flat_map fst snd]. rewrite app_nil_r.
  unfold entry_raised, entry_results; cbn [fst snd truthy].
  destruct value as [sub|[t|o]].
  - replace (first_raised (ADict sub) 4 (0 + 1))
      with (first_raised (ADict sub) 3 0)
      by (symmetry; exact (first_raised_shift 1 (ADict sub) 3 0)).
    intros Hwalk h.
    pose proof (analyze_nested_dict_any_run (ADict sub) key 3 0 h) as Hrun.
    destruct (first_raised (ADict sub) 3 0) as [name|]; [discriminate|].
    rewrite as_value_dict in Hwalk. cbv iota in Hwalk.
    rewrite <- as_value_dict in Hwalk.
    replace (walk (as_value (ADict sub)) key 4 (0 + 1))
      with (walk (as_value (ADict sub)) key 3 0) in Hwalk
      by (symmetry; exact (walk_shift 1 (as_value (ADict sub)) key 3 0)).
    injection Hwalk as <-. destruct Hrun as [g Hrun].
    exists (walk (as_value (ADict sub)) key 3 0 :: g).
    unfold recorded_size_any, bindx. rewrite Hrun.
    unfold lift, list_items, retx. now rewrite contents_middle.
  - intros [= <-] h. exists []. rewrite app_nil_r. reflexivity.
  - unfold object_raises. cbn [as_value as_leaf].
    destruct (o_getsizeof o) as [n|name] eqn:Hn; [|discriminate].
    destruct (value_preview o) as [p|name] eqn:Hp; [|discriminate].
    intros [= <-] h. exists []. rewrite app_nil_r.
    cbn [recorded_size_any]. rewrite Hn. reflexivity.
Qed.

Lemma recorded_size_is_a_walk_of_depth_4_witness :
  analyze_any (ADict [("model", Samples.any_state)]) "" 4 0 =
    Ok [leaf_descriptor "model.w" (LTensor Samples.float32_2x2);
        leaf_descriptor "model.step" (LOther (Samples.int_obj "5"))] /\
  forall h, exists new,
    recorded_size_any "model" Samples.any_state h = Ok (44, h ++ new).
Proof.
  assert (H : analyze_any (ADict [("model", Samples.any_state)]) "" 4 0 =
              Ok [leaf_descriptor "model.w" (LTensor Samples.float32_2x2);
                  leaf_descriptor "model.step"
                    (LOther (Samples.int_obj "5"))])
    by reflexivity.
  split; [exact H|].
  exact (recorded_size_is_a_walk_of_depth_4 "model" Samples.any_state _ H).
Defined.
